(** * Voces Anonimas: crisis detection, urgency escalation and the
      message-record lifecycle

    A shallow embedding of [crisis-detection.js] (the [CrisisDetection]
    object), of the record functions of [app.js] ([generateTrackingCode],
    [getMessages], [saveMessages], [addMessage], [getMessageByCode],
    [handleStudentReply]) and of [handleReplySubmit] of [counselor.js].

    JavaScript strings are sequences of UTF-16 code units; they are
    modelled as lists of code units.  The string-valued enumerations of
    the program (crisis level, urgency, status, keyword category, reply
    author) are inductive types with one constructor per literal. *)

From Stdlib Require Import List ZArith NArith Bool Lia Arith.
From Stdlib Require Import Strings.String Strings.Ascii.
From Stdlib Require Import QArith Qround.
Import ListNotations.

Local Open Scope Z_scope.

(* ================================================================== *)
(** ** JavaScript strings *)
(* ================================================================== *)

Module Js.

(** A string is the list of its UTF-16 code units. *)
Definition jsstring := list N.

(** A literal of the source that only has Basic Latin characters. *)
Fixpoint lit (s : string) : jsstring :=
  match s with
  | EmptyString => []
  | String a s' => N_of_ascii a :: lit s'
  end.

(** [a === b] on strings. *)
Fixpoint str_eqb (a b : jsstring) : bool :=
  match a, b with
  | [], [] => true
  | x :: a', y :: b' => N.eqb x y && str_eqb a' b'
  | _, _ => false
  end.

(** [String.prototype.toLowerCase] as the keyword search of [analyze]
    uses it, one code unit at a time.  The model covers Basic Latin and
    the Latin-1 Supplement (the characters of the Spanish keyword
    table): [A]-[Z] and U+00C0-U+00DE except the multiplication sign
    U+00D7 move down by 32; every other code unit is kept.  JavaScript
    also lowers letters above U+00FF; of the units it produces from
    them only [i] (from U+0130, followed by U+0307) is a unit of a
    keyword, and no keyword has [i] as its last unit, so the occurrence
    of a keyword is the same.  The functions that lower or raise text
    of any kind ([getFilteredMessages], [getMessageByCode]) take the
    builtin as a parameter instead. *)
Definition lower_unit (c : N) : N :=
  if (N.leb 65 c && N.leb c 90)%bool then (c + 32)%N
  else if (N.leb 192 c && N.leb c 222 && negb (N.eqb c 215))%bool then (c + 32)%N
  else c.

Definition toLowerCase (s : jsstring) : jsstring := map lower_unit s.

(** [String.prototype.toUpperCase] and, where text of any kind is
    lowered, [String.prototype.toLowerCase] are parameters of the
    functions that call them: the Unicode case mappings are no part of
    the repository.  What is used of the upper-casing is its action on
    Basic Latin: in a string of units below 128 it raises [a]-[z] by 32
    and keeps every other unit. *)
Definition ascii_upper_unit (c : N) : N :=
  if (N.leb 97 c && N.leb c 122)%bool then (c - 32)%N else c.

Definition basic_latin (s : jsstring) : Prop :=
  Forall (fun c => (c < 128)%N) s.

Definition upper_on_ascii (toUpperCase : jsstring -> jsstring) : Prop :=
  forall s, basic_latin s -> toUpperCase s = map ascii_upper_unit s.

(** The upper-casing of Basic Latin alone; it stands for the builtin
    where an example with Basic Latin input is run. *)
Definition toUpperCase_ascii (s : jsstring) : jsstring :=
  map ascii_upper_unit s.

(** [s.startsWith(w)]: [w] is read off the front of [s]. *)
Fixpoint startsWith (s w : jsstring) {struct w} : bool :=
  match w with
  | [] => true
  | c :: w' =>
      match s with
      | [] => false
      | d :: s' => N.eqb d c && startsWith s' w'
      end
  end.

(** [s.includes(w)]: [w] occurs in [s] at some position. *)
Fixpoint includes (s w : jsstring) : bool :=
  startsWith s w ||
  match s with
  | [] => false
  | _ :: s' => includes s' w
  end.

(** [s.charAt(i)]: the one-unit string at index [i], the empty string
    when [i] is out of range. *)
Definition charAt (s : jsstring) (i : Z) : jsstring :=
  if i <? 0 then []
  else match nth_error s (Z.to_nat i) with
       | Some c => [c]
       | None => []
       end.

(** White space and line terminators removed by [String.prototype.trim]. *)
Definition is_space (c : N) : bool :=
  (N.leb 9 c && N.leb c 13) || N.eqb c 32 || N.eqb c 160 || N.eqb c 5760 ||
  (N.leb 8192 c && N.leb c 8202) || N.eqb c 8232 || N.eqb c 8233 ||
  N.eqb c 8239 || N.eqb c 8287 || N.eqb c 12288 || N.eqb c 65279.

Fixpoint trimStart (s : jsstring) : jsstring :=
  match s with
  | c :: s' => if is_space c then trimStart s' else s
  | [] => []
  end.

Definition trim (s : jsstring) : jsstring :=
  rev (trimStart (rev (trimStart s))).

(** [[...new Set(l)]]: first occurrences, in order. *)
Fixpoint uniq {A : Type} (eqb : A -> A -> bool) (l : list A) : list A :=
  match l with
  | [] => []
  | x :: l' => x :: filter (fun y => negb (eqb x y)) (uniq eqb l')
  end.

End Js.
Import Js.

(* ================================================================== *)
(** ** crisis-detection.js *)
(* ================================================================== *)

(** The keys of [CrisisDetection.keywords]. *)
Inductive Category := suicide | selfHarm | violence | severe | death.

Definition Category_eqb (a b : Category) : bool :=
  match a, b with
  | suicide, suicide | selfHarm, selfHarm | violence, violence
  | severe, severe | death, death => true
  | _, _ => false
  end.

(** The values of [crisisLevel]. *)
Inductive CrisisLevel := critical | high | moderate | none.

(** The values of the urgency selector. *)
Inductive Urgency := baja | media | alta | urgente.

(** [CrisisDetection.keywords], in the order [Object.entries] lists it.
    The letters outside Basic Latin are given by their code unit:
    241 is n with tilde, 243 is o with acute, 225 is a with acute. *)
Definition keywords : list (Category * list jsstring) :=
  [ (suicide,
      [ lit "suicidio"; lit "suicidarme"; lit "quitarme la vida";
        lit "acabar con todo"; lit "no quiero vivir"; lit "mejor muerto";
        lit "matarme" ]);
    (selfHarm,
      [ lit "cortarme"; lit "hacerme da" ++ [241%N] ++ lit "o";
        lit "lastimarme"; lit "autolesi" ++ [243%N] ++ lit "n";
        lit "herirme"; lit "golpearme" ]);
    (violence,
      [ lit "matar"; lit "violencia"; lit "arma"; lit "pistola";
        lit "cuchillo"; lit "atacar"; lit "venganza" ]);
    (severe,
      [ lit "desesperado"; lit "sin salida";
        lit "no puedo m" ++ [225%N] ++ lit "s"; lit "insoportable";
        lit "horrible"; lit "terrible" ]);
    (death,
      [ lit "muerte"; lit "morir"; lit "muerto"; lit "funeral";
        lit "despedida final" ]) ].

(** The result object of [analyze]. *)
Record Analysis := {
  isCrisis : bool;
  crisisLevel : CrisisLevel;
  severityScore : Z;
  detectedKeywords : list jsstring;
  categories : list Category;
  recommendation : jsstring
}.

(** The two accumulators of the loops of [analyze]. *)
Record Scan := {
  scan_detected : list (jsstring * Category);
  scan_score : Z
}.

(** The [if]/[else if] chain that adds the severity of one hit. *)
Definition add_severity (category : Category) (severityScore : Z) : Z :=
  match category with
  | suicide => severityScore + 10
  | selfHarm => severityScore + 8
  | violence => severityScore + 9
  | death => severityScore + 7
  | severe => severityScore + 5
  end.

(** Body of the inner loop: one keyword of one category. *)
Definition scan_word (lowerMessage : jsstring) (category : Category)
    (st : Scan) (word : jsstring) : Scan :=
  if includes lowerMessage word then
    {| scan_detected := scan_detected st ++ [(word, category)];
       scan_score := add_severity category (scan_score st) |}
  else st.

(** Body of the outer loop: one entry of the table. *)
Definition scan_entry (lowerMessage : jsstring) (st : Scan)
    (entry : Category * list jsstring) : Scan :=
  fold_left (scan_word lowerMessage (fst entry)) (snd entry) st.

Definition scan_keywords (lowerMessage : jsstring) : Scan :=
  fold_left (scan_entry lowerMessage) keywords
    {| scan_detected := []; scan_score := 0 |}.

(** The threshold cascade of [analyze]: the pair [(crisisLevel, isCrisis)]
    after the three tests. *)
Definition crisis_of_score (severityScore : Z) : CrisisLevel * bool :=
  if 10 <=? severityScore then (critical, true)
  else if 7 <=? severityScore then (high, true)
  else if 5 <=? severityScore then (moderate, true)
  else (none, false).

(** [getRecommendation].  211 is O with acute, 243 o with acute, 225 a
    with acute. *)
Definition getRecommendation (level : CrisisLevel) : jsstring :=
  match level with
  | critical =>
      lit "ACCI" ++ [211%N] ++
      lit "N INMEDIATA REQUERIDA: Contactar al estudiante de inmediato. Considerar intervenci" ++
      [243%N] ++ lit "n de emergencia."
  | high =>
      lit "ALTA PRIORIDAD: Responder dentro de las pr" ++ [243%N] ++
      lit "ximas 2 horas. Evaluar necesidad de intervenci" ++ [243%N] ++ lit "n."
  | moderate =>
      lit "PRIORIDAD MEDIA: Responder dentro del mismo d" ++ [237%N] ++
      lit "a. Monitorear de cerca."
  | none =>
      lit "Seguimiento est" ++ [225%N] ++ lit "ndar seg" ++ [250%N] ++
      lit "n protocolo."
  end.

(** [CrisisDetection.analyze]. *)
Definition analyze (message : jsstring) : Analysis :=
  let lowerMessage := toLowerCase message in
  let st := scan_keywords lowerMessage in
  let detected := scan_detected st in
  let severityScore := scan_score st in
  let '(crisisLevel, isCrisis) := crisis_of_score severityScore in
  {| isCrisis := isCrisis;
     crisisLevel := crisisLevel;
     severityScore := severityScore;
     detectedKeywords := map fst detected;
     categories := uniq Category_eqb (map snd detected);
     recommendation := getRecommendation crisisLevel |}.

Definition CrisisLevel_eqb (a b : CrisisLevel) : bool :=
  match a, b with
  | critical, critical | high, high | moderate, moderate | none, none => true
  | _, _ => false
  end.

Definition Urgency_eqb (a b : Urgency) : bool :=
  match a, b with
  | baja, baja | media, media | alta, alta | urgente, urgente => true
  | _, _ => false
  end.

(** [CrisisDetection.adjustUrgency]: three guarded returns, then the
    fall-through. *)
Definition adjustUrgency (currentUrgency : Urgency) (analysis : Analysis)
    : Urgency :=
  if CrisisLevel_eqb (crisisLevel analysis) critical then urgente
  else if CrisisLevel_eqb (crisisLevel analysis) high then alta
  else if CrisisLevel_eqb (crisisLevel analysis) moderate
          && Urgency_eqb currentUrgency baja then media
  else currentUrgency.

(* ================================================================== *)
(** ** app.js and counselor.js: the record collection *)
(* ================================================================== *)

(** The values of [status]. *)
Inductive Status := new | in_review | responded | resolved.

(** The values of [from] in a reply. *)
Inductive Author := student | counselor.

Record Reply := {
  reply_from : Author;
  reply_message : jsstring;
  reply_timestamp : jsstring
}.

(** The object [addMessage] builds; one field per property. *)
Record Message := {
  msg_id : jsstring;
  msg_trackingCode : jsstring;
  msg_category : jsstring;
  msg_urgency : Urgency;
  msg_message : jsstring;
  msg_mood : jsstring;
  msg_timestamp : jsstring;
  msg_status : Status;
  msg_crisisDetected : bool;
  msg_crisisLevel : CrisisLevel;
  msg_crisisKeywords : list jsstring;
  msg_replies : list Reply;
  msg_counselorNotes : jsstring
}.

(** The [formData] object handed to [addMessage]. *)
Record MessageData := {
  data_category : jsstring;
  data_urgency : Urgency;
  data_message : jsstring;
  data_mood : jsstring
}.

(** The two places the collection lives in: the [localStorage] item
    [vocesAnonimas_messages] ([None] while it was never written) and
    [AppState.messages].  The item holds the collection itself; the
    JSON text in between is not modelled. *)
Record World := {
  localStorage_messages : option (list Message);
  AppState_messages : list Message
}.

(** [getMessages]. *)
Definition getMessages (w : World) : list Message :=
  match localStorage_messages w with
  | Some data => data
  | None => []
  end.

(** [saveMessages]. *)
Definition saveMessages (messages : list Message) (w : World) : World :=
  {| localStorage_messages := Some messages;
     AppState_messages := messages |}.

(** The alphabet of [generateTrackingCode]. *)
Definition chars : jsstring := lit "ABCDEFGHJKLMNPQRSTUVWXYZ23456789".

(** [Math.floor(Math.random() * chars.length)] for the value [r] of
    [Math.random()].  Scaling a double by the power of two [32] is
    exact, so the rational computation is the one of the source. *)
Definition random_index (r : Q) : Z :=
  Qfloor (r * inject_Z (Z.of_nat (List.length chars))).

(** The [for] loop of [generateTrackingCode]: eight draws, [random]
    being the sequence of values [Math.random()] returns and [n] the
    number of draws made before. *)
Definition draw_code (random : nat -> Q) (n : nat) : jsstring :=
  fold_left
    (fun code i => code ++ charAt chars (random_index (random (n + i)%nat)))
    (seq 0 8) [].

(** [messages.some(m => m.trackingCode === code)]. *)
Definition code_taken (messages : list Message) (code : jsstring) : bool :=
  existsb (fun m => str_eqb (msg_trackingCode m) code) messages.

(** [generateTrackingCode].  The recursion of the source has no bound;
    [fuel] bounds the number of attempts of the model, and [None] means
    the bound was reached, not a result of the program. *)
Fixpoint generateTrackingCode (fuel : nat) (random : nat -> Q) (n : nat)
    (w : World) : option jsstring :=
  match fuel with
  | O => None
  | S fuel' =>
      let code := draw_code random n in
      let messages := getMessages w in
      if code_taken messages code
      then generateTrackingCode fuel' random (n + 8) w
      else Some code
  end.

(** [addMessage].  [dateNow] is [Date.now().toString()] and [isoNow] is
    [new Date().toISOString()] at the call. *)
Definition addMessage (fuel : nat) (random : nat -> Q)
    (dateNow isoNow : jsstring) (w : World) (messageData : MessageData)
    : option (Message * World) :=
  let messages := getMessages w in
  match generateTrackingCode fuel random 0 w with
  | None => None
  | Some trackingCode =>
      let crisisAnalysis := analyze (data_message messageData) in
      let adjustedUrgency :=
        adjustUrgency (data_urgency messageData) crisisAnalysis in
      let newMessage :=
        {| msg_id := dateNow;
           msg_trackingCode := trackingCode;
           msg_category := data_category messageData;
           msg_urgency := adjustedUrgency;
           msg_message := data_message messageData;
           msg_mood := data_mood messageData;
           msg_timestamp := isoNow;
           msg_status := new;
           msg_crisisDetected := isCrisis crisisAnalysis;
           msg_crisisLevel := crisisLevel crisisAnalysis;
           msg_crisisKeywords := detectedKeywords crisisAnalysis;
           msg_replies := [];
           msg_counselorNotes := [] |} in
      Some (newMessage, saveMessages (newMessage :: messages) w)
  end.

(** [getMessageByCode]; [None] is the [undefined] of [Array.find], and
    [toUpperCase] is the builtin. *)
Definition getMessageByCode (toUpperCase : jsstring -> jsstring)
    (w : World) (code : jsstring) : option Message :=
  let messages := getMessages w in
  find (fun m => str_eqb (toUpperCase (msg_trackingCode m)) (toUpperCase code))
       messages.

(** Assignments to the properties of a record. *)
Definition set_status (s : Status) (m : Message) : Message :=
  {| msg_id := msg_id m; msg_trackingCode := msg_trackingCode m;
     msg_category := msg_category m; msg_urgency := msg_urgency m;
     msg_message := msg_message m; msg_mood := msg_mood m;
     msg_timestamp := msg_timestamp m; msg_status := s;
     msg_crisisDetected := msg_crisisDetected m;
     msg_crisisLevel := msg_crisisLevel m;
     msg_crisisKeywords := msg_crisisKeywords m;
     msg_replies := msg_replies m;
     msg_counselorNotes := msg_counselorNotes m |}.

Definition set_counselorNotes (notes : jsstring) (m : Message) : Message :=
  {| msg_id := msg_id m; msg_trackingCode := msg_trackingCode m;
     msg_category := msg_category m; msg_urgency := msg_urgency m;
     msg_message := msg_message m; msg_mood := msg_mood m;
     msg_timestamp := msg_timestamp m; msg_status := msg_status m;
     msg_crisisDetected := msg_crisisDetected m;
     msg_crisisLevel := msg_crisisLevel m;
     msg_crisisKeywords := msg_crisisKeywords m;
     msg_replies := msg_replies m;
     msg_counselorNotes := notes |}.

(** [m.replies.push(reply)]. *)
Definition push_reply (reply : Reply) (m : Message) : Message :=
  {| msg_id := msg_id m; msg_trackingCode := msg_trackingCode m;
     msg_category := msg_category m; msg_urgency := msg_urgency m;
     msg_message := msg_message m; msg_mood := msg_mood m;
     msg_timestamp := msg_timestamp m; msg_status := msg_status m;
     msg_crisisDetected := msg_crisisDetected m;
     msg_crisisLevel := msg_crisisLevel m;
     msg_crisisKeywords := msg_crisisKeywords m;
     msg_replies := msg_replies m ++ [reply];
     msg_counselorNotes := msg_counselorNotes m |}.

(** [messages.find(p)] followed by assignments through the reference it
    returns: the first element satisfying [p] is changed in place, the
    array keeps its other elements.  [None] when [find] gives
    [undefined]. *)
Fixpoint update_found (p : Message -> bool) (f : Message -> Message)
    (messages : list Message) : option (list Message) :=
  match messages with
  | [] => None
  | m :: rest =>
      if p m then Some (f m :: rest)
      else match update_found p f rest with
           | Some rest' => Some (m :: rest')
           | None => None
           end
  end.

(** [messages.findIndex(p)], [-1] when no element satisfies [p]. *)
Fixpoint findIndex (p : Message -> bool) (messages : list Message) : Z :=
  match messages with
  | [] => -1
  | m :: rest =>
      if p m then 0
      else let i := findIndex p rest in
           if i =? -1 then -1 else i + 1
  end.

(** Assignments through [messages[i]]. *)
Fixpoint update_at (i : nat) (f : Message -> Message)
    (messages : list Message) : list Message :=
  match messages, i with
  | [], _ => []
  | m :: rest, O => f m :: rest
  | m :: rest, S i' => m :: update_at i' f rest
  end.

Definition Status_eqb (a b : Status) : bool :=
  match a, b with
  | new, new | in_review, in_review | responded, responded
  | resolved, resolved => true
  | _, _ => false
  end.

(** What [handleReplySubmit] does to the record it found. *)
Definition counselor_reply (replyText notes isoNow : jsstring)
    (message : Message) : Message :=
  let message :=
    push_reply {| reply_from := counselor; reply_message := replyText;
                  reply_timestamp := isoNow |} message in
  let message := set_counselorNotes notes message in
  if Status_eqb (msg_status message) new
     || Status_eqb (msg_status message) in_review
  then set_status responded message
  else message.

(** [handleReplySubmit] of counselor.js on the collection; [messageId],
    [replyText] and [notes] are the values read from the form.  [None]
    when no record has the id: nothing is saved. *)
Definition handleReplySubmit (messageId replyText notes isoNow : jsstring)
    (w : World) : option World :=
  let messages := getMessages w in
  match update_found (fun m => str_eqb (msg_id m) messageId)
          (counselor_reply replyText notes isoNow) messages with
  | Some messages' => Some (saveMessages messages' w)
  | None => None
  end.

(** How [handleStudentReply] ends: with one of its two alerts and
    nothing saved, or with the collection saved. *)
Inductive StudentReplyOutcome :=
| EmptyReplyAlert
| NotFoundAlert
| ReplySaved (w : World).

(** What [handleStudentReply] does to [messages[messageIndex]]. *)
Definition student_reply (replyText isoNow : jsstring) (message : Message)
    : Message :=
  set_status responded
    (push_reply {| reply_from := student; reply_message := replyText;
                   reply_timestamp := isoNow |} message).

(** [handleStudentReply] of app.js; [inputValue] is the value of the
    text area. *)
Definition handleStudentReply (trackingCode inputValue isoNow : jsstring)
    (w : World) : StudentReplyOutcome :=
  let replyText := trim inputValue in
  match replyText with
  | [] => EmptyReplyAlert
  | _ :: _ =>
      let messages := getMessages w in
      let messageIndex :=
        findIndex (fun m => str_eqb (msg_trackingCode m) trackingCode)
                  messages in
      if messageIndex =? -1 then NotFoundAlert
      else ReplySaved
             (saveMessages
                (update_at (Z.to_nat messageIndex)
                   (student_reply replyText isoNow) messages) w)
  end.

(* ================================================================== *)
(** ** The reading of the specification *)
(* ================================================================== *)

(** The keyword table as a flat list of (keyword, category) pairs. *)
Definition pairs_of (table : list (Category * list jsstring))
    : list (jsstring * Category) :=
  flat_map (fun entry => map (fun word => (word, fst entry)) (snd entry)) table.

Definition keyword_pairs : list (jsstring * Category) := pairs_of keywords.

(** The weight table of section 4.1. *)
Definition category_weight (c : Category) : Z :=
  match c with
  | suicide => 10
  | selfHarm => 8
  | violence => 9
  | death => 7
  | severe => 5
  end.

(** Equality of two strings up to letter case. *)
Definition eq_nocase (a b : jsstring) : bool :=
  str_eqb (toLowerCase a) (toLowerCase b).

(** The keyword is, up to letter case, the piece of the text that starts
    at position [i] and has the keyword's length. *)
Definition occurs_at_nocase (keyword text : jsstring) (i : nat) : bool :=
  eq_nocase (firstn (List.length keyword) (skipn i text)) keyword.

(** Case-insensitive substring containment: some position works. *)
Definition occurs_nocase (keyword text : jsstring) : bool :=
  existsb (occurs_at_nocase keyword text) (seq 0 (S (List.length text))).

Definition sumZ (l : list Z) : Z := fold_right Z.add 0 l.

(** The score of the specification: the weights of the pairs of the
    table whose keyword occurs in the text, added up. *)
Definition spec_severityScore (text : jsstring) : Z :=
  sumZ (map (fun p => category_weight (snd p))
            (filter (fun p => occurs_nocase (fst p) text) keyword_pairs)).

(** Equality of two pairs of the table is decidable. *)
Definition pair_eq_dec (p q : jsstring * Category) : {p = q} + {p <> q}.
Proof.
  decide equality; [decide equality | apply (list_eq_dec N.eq_dec)].
Defined.

(** The policy table of section 4.2: a rule has a guard on the declared
    urgency and the level, and the urgency it forces. *)
Record Rule := {
  rule_guard : Urgency -> CrisisLevel -> bool;
  rule_urgency : Urgency
}.

(** Rules 1 to 3, in order; rule 4 is the default of [first_match]. *)
Definition policy_table : list Rule :=
  [ {| rule_guard := fun _ level => CrisisLevel_eqb level critical;
       rule_urgency := urgente |};
    {| rule_guard := fun _ level => CrisisLevel_eqb level high;
       rule_urgency := alta |};
    {| rule_guard := fun declared level =>
         CrisisLevel_eqb level moderate && Urgency_eqb declared baja;
       rule_urgency := media |} ].

(** First match wins; with no match the declared urgency is returned. *)
Fixpoint first_match (rules : list Rule) (declared : Urgency)
    (level : CrisisLevel) : Urgency :=
  match rules with
  | [] => declared
  | r :: rules' =>
      if rule_guard r declared level then rule_urgency r
      else first_match rules' declared level
  end.

(** The ordinal scale baja < media < alta < urgente. *)
Definition urgency_rank (u : Urgency) : Z :=
  match u with
  | baja => 0
  | media => 1
  | alta => 2
  | urgente => 3
  end.

(** All strings of a given length over the alphabet. *)
Fixpoint code_space (len : nat) : list jsstring :=
  match len with
  | O => [[]]
  | S len' => flat_map (fun c => map (cons c) (code_space len')) chars
  end.



(** The status a counselor reply leaves behind. *)
Definition status_after_counselor_reply (s : Status) : Status :=
  match s with
  | new | in_review => responded
  | responded => responded
  | resolved => resolved
  end.

(** The stored code and the query are the same up to letter case:
    upper-casing makes them equal. *)
Definition code_matches (toUpperCase : jsstring -> jsstring)
    (code : jsstring) (m : Message) : Prop :=
  toUpperCase (msg_trackingCode m) = toUpperCase code.

(* ================================================================== *)
(** ** Sample inputs *)
(* ================================================================== *)

(** An analysis object with a given level; the other fields play no
    part in [adjustUrgency]. *)
Definition analysis_of_level (level : CrisisLevel) : Analysis :=
  {| isCrisis := negb (CrisisLevel_eqb level none);
     crisisLevel := level;
     severityScore := 0;
     detectedKeywords := [];
     categories := [];
     recommendation := getRecommendation level |}.

(** The store before anything was saved. *)
Definition emptyWorld : World :=
  {| localStorage_messages := None; AppState_messages := [] |}.

(** The text of the example scenario of section 8. *)
Definition scenario_text : jsstring :=
  lit "me siento desesperado y quiero matarme".

(** A stored record with the code [AAAAAAAA]. *)
Definition sample_message : Message :=
  {| msg_id := lit "1765237304000";
     msg_trackingCode := lit "AAAAAAAA";
     msg_category := lit "otro";
     msg_urgency := baja;
     msg_message := lit "hola";
     msg_mood := lit "bien";
     msg_timestamp := lit "2025-12-08T23:41:44.000Z";
     msg_status := new;
     msg_crisisDetected := false;
     msg_crisisLevel := none;
     msg_crisisKeywords := [];
     msg_replies := [];
     msg_counselorNotes := [] |}.

(** The collection that holds this record only. *)
Definition sample_world : World := saveMessages [sample_message] emptyWorld.

(** A source of [Math.random()] values whose first eight draws spell
    [AAAAAAAA] and whose later draws spell [BBBBBBBB]. *)
Definition sample_random (i : nat) : Q :=
  if (i <? 8)%nat then 0%Q else (1 # 32)%Q.

(** A submission whose body has the level critical. *)
Definition critical_submission (declared : Urgency) : MessageData :=
  {| data_category := lit "otro"; data_urgency := declared;
     data_message := lit "quiero matarme"; data_mood := lit "triste" |}.

(** The same record once resolved, and the collection that holds it. *)
Definition resolved_message : Message := set_status resolved sample_message.

Definition resolved_world : World := saveMessages [resolved_message] emptyWorld.

(* ================================================================== *)
(** ** app.js and counselor.js: the other handlers *)
(* ================================================================== *)

(** [initApp], as far as the collection goes: [AppState.messages] is
    loaded from the store. *)
Definition initApp (w : World) : World :=
  {| localStorage_messages := localStorage_messages w;
     AppState_messages := getMessages w |}.

(** How [handleMessageSubmit] ends: with the mood alert and nothing
    created, or with the record [addMessage] returned. *)
Inductive SubmitOutcome :=
| MoodAlert
| Submitted (newMessage : Message) (w : World).

(** [handleMessageSubmit] of app.js.  [category], [urgency] and [message]
    are the values of the form, [selectedMood] is [AppState.selectedMood]
    ([None] for [null]).  The outer [None] is the bound of the generator
    being reached. *)
Definition handleMessageSubmit (fuel : nat) (random : nat -> Q)
    (dateNow isoNow : jsstring) (category : jsstring) (urgency : Urgency)
    (message : jsstring) (selectedMood : option jsstring) (w : World)
    : option SubmitOutcome :=
  match selectedMood with
  | None => Some MoodAlert
  | Some [] => Some MoodAlert
  | Some (c :: rest) =>
      let formData :=
        {| data_category := category; data_urgency := urgency;
           data_message := message; data_mood := c :: rest |} in
      match addMessage fuel random dateNow isoNow w formData with
      | Some (newMessage, w') => Some (Submitted newMessage w')
      | None => None
      end
  end.

(** How [handleTrackMessage] ends: with the alert for an empty input,
    with the not-found notice, or showing a record, with or without the
    form [studentReplyForm] from which [handleStudentReply] is called. *)
Inductive TrackOutcome :=
| EmptyCodeAlert
| CodeNotFound
| TrackingShown (message : Message) (replyForm : bool).

(** The test under which [handleTrackMessage] renders the reply form:
    [message.status === 'responded' || message.replies.length > 0]. *)
Definition reply_form_rendered (message : Message) : bool :=
  Status_eqb (msg_status message) responded
  || (0 <? List.length (msg_replies message))%nat.

(** [handleTrackMessage] of app.js; [inputValue] is the value of the
    code input and [toUpperCase] the builtin.  Of the page it renders
    for a record, the model keeps the record and whether the reply form
    is there. *)
Definition handleTrackMessage (toUpperCase : jsstring -> jsstring)
    (inputValue : jsstring) (w : World) : TrackOutcome :=
  let code := trim inputValue in
  match code with
  | [] => EmptyCodeAlert
  | _ :: _ =>
      match getMessageByCode toUpperCase w code with
      | None => CodeNotFound
      | Some message => TrackingShown message (reply_form_rendered message)
      end
  end.

(** [updateMessageStatus] of counselor.js on the collection; [None] when
    no record has the id: nothing is saved. *)
Definition updateMessageStatus (messageId : jsstring) (newStatus : Status)
    (w : World) : option World :=
  let messages := getMessages w in
  match update_found (fun m => str_eqb (msg_id m) messageId)
          (set_status newStatus) messages with
  | Some messages' => Some (saveMessages messages' w)
  | None => None
  end.

(** The four numbers [updateDashboardStats] writes to the dashboard. *)
Record DashboardStats := {
  stat_total : nat;
  stat_urgent : nat;
  stat_pending : nat;
  stat_resolved : nat
}.

(** [updateDashboardStats] of counselor.js. *)
Definition updateDashboardStats (w : World) : DashboardStats :=
  let messages := getMessages w in
  {| stat_total := List.length messages;
     stat_urgent :=
       List.length
         (filter (fun m => Urgency_eqb (msg_urgency m) urgente
                           || msg_crisisDetected m) messages);
     stat_pending :=
       List.length
         (filter (fun m => Status_eqb (msg_status m) new
                           || Status_eqb (msg_status m) in_review) messages);
     stat_resolved :=
       List.length
         (filter (fun m => Status_eqb (msg_status m) resolved) messages) |}.

(** [x || d] for a string that may be missing: the default when the
    string is missing or empty. *)
Definition or_default (x : option jsstring) (d : jsstring) : jsstring :=
  match x with
  | Some (c :: rest) => c :: rest
  | _ => d
  end.

(** [getFilteredMessages] of counselor.js.  The status and urgency
    selectors hold one of the enumerated values or [all], which is
    [None] here; [categoryValue] and [searchValue] are the values of the
    category selector and of the search box, [None] when the element is
    missing; [toLowerCase] is the builtin. *)
Definition getFilteredMessages (toLowerCase : jsstring -> jsstring)
    (statusFilter : option Status) (urgencyFilter : option Urgency)
    (categoryValue searchValue : option jsstring) (w : World)
    : list Message :=
  let messages := getMessages w in
  let categoryFilter := or_default categoryValue (lit "all") in
  let searchQuery := or_default (option_map toLowerCase searchValue) [] in
  let messages :=
    match statusFilter with
    | Some s => filter (fun m => Status_eqb (msg_status m) s) messages
    | None => messages
    end in
  let messages :=
    match urgencyFilter with
    | Some u => filter (fun m => Urgency_eqb (msg_urgency m) u) messages
    | None => messages
    end in
  let messages :=
    if negb (str_eqb categoryFilter (lit "all"))
    then filter (fun m => str_eqb (msg_category m) categoryFilter) messages
    else messages in
  let messages :=
    match searchQuery with
    | _ :: _ =>
        filter (fun m =>
                  includes (toLowerCase (msg_message m)) searchQuery
                  || includes (toLowerCase (msg_trackingCode m)) searchQuery
                  || includes (toLowerCase (msg_category m)) searchQuery)
               messages
    | [] => messages
    end in
  messages.

(* ================================================================== *)
(** ** Analytics module: the counts over the collection *)
(* ================================================================== *)

(** The object [getCrisisStats] returns. *)
Record CrisisStats := {
  crisis_total : nat;
  crisis_critical : nat;
  crisis_high : nat;
  crisis_moderate : nat
}.

(** [AnalyticsSystem.getCrisisStats]. *)
Definition getCrisisStats (w : World) : CrisisStats :=
  let messages := getMessages w in
  let crisisMessages := filter msg_crisisDetected messages in
  {| crisis_total := List.length crisisMessages;
     crisis_critical :=
       List.length
         (filter (fun m => CrisisLevel_eqb (msg_crisisLevel m) critical)
                 crisisMessages);
     crisis_high :=
       List.length
         (filter (fun m => CrisisLevel_eqb (msg_crisisLevel m) high)
                 crisisMessages);
     crisis_moderate :=
       List.length
         (filter (fun m => CrisisLevel_eqb (msg_crisisLevel m) moderate)
                 crisisMessages) |}.

(** The object [getUrgencyDistribution] returns: one counter per
    urgency. *)
Record UrgencyDistribution := {
  dist_baja : Z;
  dist_media : Z;
  dist_alta : Z;
  dist_urgente : Z
}.

(** [distribution[u] = (distribution[u] || 0) + 1]. *)
Definition count_urgency (distribution : UrgencyDistribution) (u : Urgency)
    : UrgencyDistribution :=
  match u with
  | baja =>
      {| dist_baja := dist_baja distribution + 1;
         dist_media := dist_media distribution;
         dist_alta := dist_alta distribution;
         dist_urgente := dist_urgente distribution |}
  | media =>
      {| dist_baja := dist_baja distribution;
         dist_media := dist_media distribution + 1;
         dist_alta := dist_alta distribution;
         dist_urgente := dist_urgente distribution |}
  | alta =>
      {| dist_baja := dist_baja distribution;
         dist_media := dist_media distribution;
         dist_alta := dist_alta distribution + 1;
         dist_urgente := dist_urgente distribution |}
  | urgente =>
      {| dist_baja := dist_baja distribution;
         dist_media := dist_media distribution;
         dist_alta := dist_alta distribution;
         dist_urgente := dist_urgente distribution + 1 |}
  end.

(** [AnalyticsSystem.getUrgencyDistribution]. *)
Definition getUrgencyDistribution (w : World) : UrgencyDistribution :=
  let messages := getMessages w in
  fold_left (fun distribution m => count_urgency distribution (msg_urgency m))
    messages
    {| dist_baja := 0; dist_media := 0; dist_alta := 0; dist_urgente := 0 |}.

(* ================================================================== *)
(** ** Histories of the collection *)
(* ================================================================== *)

(** One call of a handler that saves the collection. *)
Inductive step : World -> World -> Prop :=
| step_initApp (w : World) :
    step w (initApp w)
| step_addMessage (fuel : nat) (random : nat -> Q)
    (dateNow isoNow : jsstring) (d : MessageData) (m : Message)
    (w w' : World) :
    (forall i, (0 <= random i < 1)%Q) ->
    addMessage fuel random dateNow isoNow w d = Some (m, w') ->
    step w w'
| step_handleReplySubmit (messageId replyText notes isoNow : jsstring)
    (w w' : World) :
    handleReplySubmit messageId replyText notes isoNow w = Some w' ->
    step w w'
| step_handleStudentReply (trackingCode inputValue isoNow : jsstring)
    (w w' : World) :
    handleStudentReply trackingCode inputValue isoNow w = ReplySaved w' ->
    step w w'
| step_updateMessageStatus (messageId : jsstring) (newStatus : Status)
    (w w' : World) :
    updateMessageStatus messageId newStatus w = Some w' ->
    step w w'.

(** Any number of calls, one after the other. *)
Inductive steps : World -> World -> Prop :=
| steps_refl (w : World) : steps w w
| steps_next (w w' w'' : World) : steps w w' -> step w' w'' -> steps w w''.

(** The collections the handlers can build from the empty store. *)
Definition reachable (w : World) : Prop := steps emptyWorld w.

(** The fields [addMessage] sets and no handler assigns afterwards. *)
Definition same_submission (a b : Message) : Prop :=
  msg_id a = msg_id b /\
  msg_trackingCode a = msg_trackingCode b /\
  msg_category a = msg_category b /\
  msg_urgency a = msg_urgency b /\
  msg_message a = msg_message b /\
  msg_mood a = msg_mood b /\
  msg_timestamp a = msg_timestamp b /\
  msg_crisisDetected a = msg_crisisDetected b /\
  msg_crisisLevel a = msg_crisisLevel b /\
  msg_crisisKeywords a = msg_crisisKeywords b.

(** [b] is [a] at a later time: the same submission, with the replies of
    [a] followed by further ones. *)
Definition later_version (a b : Message) : Prop :=
  same_submission a b /\
  exists more, msg_replies b = msg_replies a ++ more.

(** The crisis fields and the urgency of a record agree the way
    [addMessage] sets them. *)
Definition crisis_fields_agree (m : Message) : Prop :=
  (msg_crisisDetected m = true <-> msg_crisisLevel m <> none) /\
  (msg_crisisLevel m = critical -> msg_urgency m = urgente) /\
  (msg_crisisLevel m = high -> msg_urgency m = alta) /\
  (msg_crisisLevel m = moderate -> msg_urgency m <> baja).

(** The ordinal scale none < moderate < high < critical. *)
Definition level_rank (l : CrisisLevel) : Z :=
  match l with
  | none => 0
  | moderate => 1
  | high => 2
  | critical => 3
  end.

(** The pairs of the table whose keyword occurs in the text. *)
Definition hits (text : jsstring) : list (jsstring * Category) :=
  filter (fun p => occurs_nocase (fst p) text) keyword_pairs.

(** The level that a list of hits stands for: one severe hit is
    moderate, one death, self-harm or violence hit is high, a suicide
    hit or two hits are critical. *)
Definition level_of_hits (hs : list (jsstring * Category)) : CrisisLevel :=
  match hs with
  | [] => none
  | [(_, severe)] => moderate
  | [(_, suicide)] => critical
  | [_] => high
  | _ :: _ :: _ => critical
  end.

(* ================================================================== *)
(** ** Sample history *)
(* ================================================================== *)

(** The store after one submission with a critical body and the declared
    urgency baja, the generator drawing [AAAAAAAA]. *)
Definition world_after_submission : World :=
  match addMessage 1 (fun _ => 0%Q) (lit "1765237304000")
          (lit "2025-12-08T23:41:44.000Z") emptyWorld
          (critical_submission baja) with
  | Some (_, w') => w'
  | None => emptyWorld
  end.

(** The store after a counselor reply to that record. *)
Definition world_after_reply : World :=
  match handleReplySubmit (lit "1765237304000") (lit "estamos contigo")
          (lit "llamar hoy") (lit "2025-12-09T08:00:00.000Z")
          world_after_submission with
  | Some w' => w'
  | None => world_after_submission
  end.

(** The store once the record was then marked resolved. *)
Definition world_after_resolution : World :=
  match updateMessageStatus (lit "1765237304000") resolved
          world_after_reply with
  | Some w' => w'
  | None => world_after_reply
  end.

(** A submission without keywords. *)
Definition plain_submission : MessageData :=
  {| data_category := lit "academico"; data_urgency := media;
     data_message := lit "tengo examen"; data_mood := lit "nervioso" |}.

(** The store after a second submission: the first draw of the
    generator, [AAAAAAAA], is taken and its second draw is [BBBBBBBB];
    the store then holds two records. *)
Definition world_two_records : World :=
  match addMessage 2 sample_random (lit "1765300000000")
          (lit "2025-12-09T17:06:40.000Z") world_after_resolution
          plain_submission with
  | Some (_, w') => w'
  | None => world_after_resolution
  end.

(* ================================================================== *)
(** ** The reading of the filters *)
(* ================================================================== *)

(** A record passes the four filters of the dashboard: each filter that
    is set must hold, the search looking for the lowered query in the
    lowered body, tracking code and category. *)
Definition passes_filters (toLowerCase : jsstring -> jsstring)
    (statusFilter : option Status) (urgencyFilter : option Urgency)
    (categoryFilter searchQuery : jsstring) (m : Message) : bool :=
  match statusFilter with
  | Some s => Status_eqb (msg_status m) s
  | None => true
  end &&
  match urgencyFilter with
  | Some u => Urgency_eqb (msg_urgency m) u
  | None => true
  end &&
  (str_eqb categoryFilter (lit "all")
   || str_eqb (msg_category m) categoryFilter) &&
  match searchQuery with
  | [] => true
  | _ :: _ =>
      includes (toLowerCase (msg_message m)) searchQuery
      || includes (toLowerCase (msg_trackingCode m)) searchQuery
      || includes (toLowerCase (msg_category m)) searchQuery
  end.

(** The number of records of a collection with a given urgency. *)
Definition count_with_urgency (u : Urgency) (messages : list Message) : Z :=
  Z.of_nat (List.length
              (filter (fun m => Urgency_eqb (msg_urgency m) u) messages)).

(** [showMessageDetail] of counselor.js up to the recommendation of its
    crisis alert: [None] when no record has the id or the record has no
    detected crisis, otherwise the recommendation of a fresh [analyze]
    of the stored body. *)
Definition showMessageDetail_recommendation (messageId : jsstring)
    (w : World) : option jsstring :=
  match find (fun m => str_eqb (msg_id m) messageId) (getMessages w) with
  | None => None
  | Some message =>
      if msg_crisisDetected message
      then Some (recommendation (analyze (msg_message message)))
      else None
  end.

(** The crisis fields of a record are those of [analyze] of its body. *)
Definition snapshot_of_body (m : Message) : Prop :=
  msg_crisisDetected m = isCrisis (analyze (msg_message m)) /\
  msg_crisisLevel m = crisisLevel (analyze (msg_message m)) /\
  msg_crisisKeywords m = detectedKeywords (analyze (msg_message m)).

(* ================================================================== *)
(** ** Strings: lemmas *)
(* ================================================================== *)

Lemma str_eqb_eq (a b : jsstring) : str_eqb a b = true <-> a = b.
Proof.
  revert b; induction a as [|x a IH]; intros [|y b]; simpl;
    try (split; [discriminate | discriminate]); try tauto.
  rewrite andb_true_iff, N.eqb_eq, IH.
  split; [intros [-> ->]; reflexivity | intros E; inversion E; auto].
Qed.

Lemma str_eqb_refl (a : jsstring) : str_eqb a a = true.
Proof. apply str_eqb_eq; reflexivity. Qed.

Lemma str_eqb_neq (a b : jsstring) : str_eqb a b = false <-> a <> b.
Proof.
  rewrite <- str_eqb_eq. destruct (str_eqb a b); split; congruence.
Qed.

Lemma startsWith_spec (s w : jsstring) :
  startsWith s w = true <-> exists post, s = w ++ post.
Proof.
  revert s; induction w as [|c w IH]; intros s; simpl.
  - split; [intros _; exists s; reflexivity | reflexivity].
  - destruct s as [|d s].
    + split; [discriminate | intros [post E]; discriminate].
    + rewrite andb_true_iff, N.eqb_eq, IH. split.
      * intros [-> [post ->]]. exists post; reflexivity.
      * intros [post E]. inversion E; subst. split; [reflexivity | eauto].
Qed.

Lemma includes_spec (s w : jsstring) :
  includes s w = true <-> exists pre post, s = pre ++ w ++ post.
Proof.
  induction s as [|a s IH]; simpl.
  - rewrite orb_false_r, startsWith_spec. split.
    + intros [post E]. exists [], post. exact E.
    + intros [pre [post E]]. destruct pre; [eauto | discriminate].
  - rewrite orb_true_iff, startsWith_spec, IH. split.
    + intros [[post E] | [pre [post E]]].
      * exists [], post. exact E.
      * exists (a :: pre), post. simpl. now rewrite E.
    + intros [[|b pre] [post E]].
      * left. eauto.
      * right. inversion E. eauto.
Qed.

(** Containment up to case, as a statement about pieces of the text. *)
Lemma occurs_nocase_spec (keyword text : jsstring) :
  occurs_nocase keyword text = true <->
  exists pre mid post,
    text = pre ++ mid ++ post /\ toLowerCase mid = toLowerCase keyword.
Proof.
  unfold occurs_nocase, occurs_at_nocase, eq_nocase.
  rewrite existsb_exists. split.
  - intros [i [_ E]]. apply str_eqb_eq in E.
    exists (firstn i text),
           (firstn (List.length keyword) (skipn i text)),
           (skipn (List.length keyword) (skipn i text)).
    split; [| exact E].
    now rewrite !firstn_skipn.
  - intros [pre [mid [post [-> E]]]].
    exists (List.length pre). split.
    + apply in_seq. rewrite !length_app. lia.
    + apply str_eqb_eq. rewrite skipn_app, skipn_all, Nat.sub_diag. simpl.
      assert (L : List.length mid = List.length keyword).
      { unfold toLowerCase in E.
        rewrite <- (length_map lower_unit mid), E. apply length_map. }
      rewrite <- L, firstn_app, firstn_all, Nat.sub_diag. simpl.
      now rewrite app_nil_r.
Qed.

(** Lowering the whole text and searching the keyword as it stands is
    containment up to case, for a keyword that is in lower case. *)
Lemma includes_toLowerCase (keyword text : jsstring) :
  toLowerCase keyword = keyword ->
  includes (toLowerCase text) keyword = occurs_nocase keyword text.
Proof.
  intros Hk. apply eq_true_iff_eq.
  rewrite includes_spec, occurs_nocase_spec. unfold toLowerCase in *.
  split.
  - intros [pre [post E]].
    apply map_eq_app in E. destruct E as [t1 [t23 [-> [E1 E]]]].
    apply map_eq_app in E. destruct E as [t2 [t3 [-> [E2 E3]]]].
    exists t1, t2, t3. split; [reflexivity | congruence].
  - intros [pre [mid [post [-> E]]]].
    exists (map lower_unit pre), (map lower_unit post).
    rewrite !map_app. congruence.
Qed.

(* ================================================================== *)
(** ** The classifier *)
(* ================================================================== *)

Section Scoring.

Variable lowerMessage : jsstring.

Let hit (p : jsstring * Category) : bool := includes lowerMessage (fst p).
Let weight_of (p : jsstring * Category) : Z := category_weight (snd p).

Lemma add_severity_weight (c : Category) (z : Z) :
  add_severity c z = z + category_weight c.
Proof. destruct c; reflexivity. Qed.

Lemma sumZ_app (l1 l2 : list Z) : sumZ (l1 ++ l2) = sumZ l1 + sumZ l2.
Proof. induction l1 as [|x l1 IH]; simpl; [reflexivity | rewrite IH; lia]. Qed.

(** The inner loop adds the weight of the category once per keyword of
    the list that is found. *)
Lemma scan_words_score (category : Category) (words : list jsstring)
    (st : Scan) :
  scan_score (fold_left (scan_word lowerMessage category) words st) =
  scan_score st +
  sumZ (map weight_of (filter hit (map (fun w => (w, category)) words))).
Proof.
  revert st; induction words as [|w words IH]; intros st; simpl.
  - lia.
  - rewrite IH. unfold scan_word, hit at 2. simpl.
    destruct (includes lowerMessage w); simpl.
    + rewrite add_severity_weight. unfold weight_of at 2. simpl. lia.
    + lia.
Qed.

(** The outer loop does so for every entry of the table. *)
Lemma scan_table_score (table : list (Category * list jsstring))
    (st : Scan) :
  scan_score (fold_left (scan_entry lowerMessage) table st) =
  scan_score st + sumZ (map weight_of (filter hit (pairs_of table))).
Proof.
  revert st; induction table as [|[category words] table IH]; intros st;
    simpl.
  - lia.
  - rewrite IH. unfold scan_entry; simpl. rewrite scan_words_score.
    rewrite filter_app, map_app, sumZ_app. lia.
Qed.

End Scoring.

Lemma keyword_pairs_NoDup : NoDup keyword_pairs.
Proof.
  replace keyword_pairs with (nodup pair_eq_dec keyword_pairs)
    by (vm_compute; reflexivity).
  apply NoDup_nodup.
Qed.

(** Every keyword of the table is written in lower case. *)
Lemma keyword_pairs_lower :
  forall p, In p keyword_pairs -> toLowerCase (fst p) = fst p.
Proof.
  apply Forall_forall.
  assert (H : forallb (fun p => str_eqb (toLowerCase (fst p)) (fst p))
                keyword_pairs = true) by (vm_compute; reflexivity).
  rewrite forallb_forall in H. apply Forall_forall. intros p Hp.
  apply str_eqb_eq, H, Hp.
Qed.

(** C1. For every text, the [severityScore] of [analyze] is the sum of
    the category weights (suicide 10, self-harm 8, violence 9, death 7,
    severe 5) over the (keyword, category) pairs of the table whose
    keyword occurs in the text as a substring up to letter case.  The
    pairs of the table are pairwise distinct, so a pair that matches is
    counted once, how often the keyword occurs in the text does not
    matter, and several keywords of one category each add the weight. *)
Theorem analyze_severityScore :
  NoDup keyword_pairs /\
  forall text : jsstring,
    severityScore (analyze text) = spec_severityScore text.
Proof.
  split; [exact keyword_pairs_NoDup |].
  intros text. unfold analyze.
  destruct (crisis_of_score _) as [lvl crisis]. simpl.
  unfold scan_keywords. rewrite scan_table_score. simpl scan_score.
  unfold spec_severityScore. fold keyword_pairs.
  rewrite Z.add_0_l. f_equal. f_equal.
  apply filter_ext_in. intros p Hp.
  apply includes_toLowerCase, keyword_pairs_lower, Hp.
Qed.

(** A keyword inside a longer word counts, in any letter case. *)
Example analyze_inside_word :
  severityScore (analyze (lit "Suena la ALARMA")) = 9.
Proof. vm_compute. reflexivity. Qed.

(** Two keywords of one category both count. *)
Example analyze_same_category :
  severityScore (analyze (lit "horrible y terrible")) = 10 /\
  crisisLevel (analyze (lit "horrible y terrible")) = critical.
Proof. split; vm_compute; reflexivity. Qed.

(** A keyword that occurs twice counts once. *)
Example analyze_repeated_keyword :
  severityScore (analyze (lit "horrible, horrible")) = 5 /\
  detectedKeywords (analyze (lit "horrible, horrible")) = [lit "horrible"].
Proof. split; vm_compute; reflexivity. Qed.

(** C2. The level of [analyze] follows from its score by the thresholds
    read from the top: 10 or more is critical, otherwise 7 or more is
    high, otherwise 5 or more is moderate, otherwise none; [isCrisis]
    holds exactly when the level is not none.  At the boundaries the
    cascade gives critical for 10, high for 9 and 7, moderate for 6 and
    5, none for 4. *)
Theorem analyze_crisisLevel :
  (forall text : jsstring,
     let a := analyze text in
     (10 <= severityScore a -> crisisLevel a = critical) /\
     (7 <= severityScore a < 10 -> crisisLevel a = high) /\
     (5 <= severityScore a < 7 -> crisisLevel a = moderate) /\
     (severityScore a < 5 -> crisisLevel a = none) /\
     (isCrisis a = true <-> crisisLevel a <> none)) /\
  crisis_of_score 10 = (critical, true) /\
  crisis_of_score 9 = (high, true) /\
  crisis_of_score 7 = (high, true) /\
  crisis_of_score 6 = (moderate, true) /\
  crisis_of_score 5 = (moderate, true) /\
  crisis_of_score 4 = (none, false).
Proof.
  split; [| repeat split].
  intros text a. subst a. unfold analyze.
  set (s := scan_score _). unfold crisis_of_score.
  destruct (Z.leb_spec 10 s); [| destruct (Z.leb_spec 7 s);
    [| destruct (Z.leb_spec 5 s)]]; simpl;
    repeat split; intros; try lia; try reflexivity; congruence.
Qed.

(** C3. [adjustUrgency] is the ordered policy table read with first
    match winning: urgente for a critical level; else alta for a high
    level; else media for a moderate level with declared baja; else the
    declared urgency. *)
Theorem adjustUrgency_policy :
  forall (declared : Urgency) (analysis : Analysis),
    adjustUrgency declared analysis =
      first_match policy_table declared (crisisLevel analysis) /\
    adjustUrgency declared analysis =
      match crisisLevel analysis, declared with
      | critical, _ => urgente
      | high, _ => alta
      | moderate, baja => media
      | _, _ => declared
      end.
Proof.
  intros declared analysis. unfold adjustUrgency. simpl.
  destruct (crisisLevel analysis), declared; split; reflexivity.
Qed.

(** C4. The escalation lowers a declared urgente to alta when the level
    is high: [adjustUrgency] does so, and so does the record that
    [addMessage] builds for the text [muerte] (one death keyword, score
    7, level high) declared urgente. *)
Theorem escalation_lowers_urgente :
  adjustUrgency urgente (analysis_of_level high) = alta /\
  urgency_rank alta < urgency_rank urgente /\
  crisisLevel (analyze (lit "muerte")) = high /\
  exists m w',
    addMessage 1 (fun _ => 0%Q) (lit "1765237304000")
      (lit "2025-12-08T23:41:44.000Z") emptyWorld
      {| data_category := lit "otro"; data_urgency := urgente;
         data_message := lit "muerte"; data_mood := lit "triste" |}
    = Some (m, w') /\
    msg_urgency m = alta.
Proof.
  split; [reflexivity |]. split; [reflexivity |].
  split; [vm_compute; reflexivity |].
  eexists. eexists. split; [vm_compute; reflexivity | reflexivity].
Qed.

(** C5. [adjustUrgency] gives an urgency strictly below the declared one
    in exactly one case: the level is high and the declared urgency is
    urgente; and there it gives alta. *)
Theorem adjustUrgency_lowers_iff :
  forall (U : Urgency) (C : Analysis),
    (urgency_rank (adjustUrgency U C) < urgency_rank U <->
     crisisLevel C = high /\ U = urgente) /\
    (crisisLevel C = high -> adjustUrgency urgente C = alta).
Proof.
  intros U C. unfold adjustUrgency.
  destruct (crisisLevel C), U; simpl;
    (split; [split; [try lia; intros _; split; reflexivity
                    | try lia; intros [? ?]; congruence]
            | try reflexivity; congruence]).
Qed.

Lemma adjustUrgency_lowers_iff_witness :
  crisisLevel (analysis_of_level high) = high /\
  adjustUrgency urgente (analysis_of_level high) = alta /\
  urgency_rank (adjustUrgency urgente (analysis_of_level high))
    < urgency_rank urgente.
Proof.
  destruct (adjustUrgency_lowers_iff urgente (analysis_of_level high))
    as [[_ L] A].
  split; [reflexivity |]. split; [exact (A eq_refl) |].
  apply L. split; reflexivity.
Defined.

(** The scenario of section 8 with the score 15 the specification
    gives it does not hold. *)
Lemma scenario_score_not_15 :
  ~ (severityScore (analyze scenario_text) = 15 /\
     crisisLevel (analyze scenario_text) = critical /\
     isCrisis (analyze scenario_text) = true /\
     adjustUrgency baja (analyze scenario_text) = urgente).
Proof. intros [H _]. vm_compute in H. discriminate. Qed.

(** C6. For the text [me siento desesperado y quiero matarme], [analyze]
    finds [matarme] (suicide, 10), [matar] (violence, 9: it is a
    substring of [matarme]) and [desesperado] (severe, 5): the score is
    24, the level critical, [isCrisis] true, and a declared baja becomes
    urgente. *)
Theorem scenario_analysis :
  detectedKeywords (analyze scenario_text) =
    [lit "matarme"; lit "matar"; lit "desesperado"] /\
  categories (analyze scenario_text) = [suicide; violence; severe] /\
  severityScore (analyze scenario_text) = 10 + 9 + 5 /\
  crisisLevel (analyze scenario_text) = critical /\
  isCrisis (analyze scenario_text) = true /\
  adjustUrgency baja (analyze scenario_text) = urgente.
Proof. repeat split; vm_compute; reflexivity. Qed.

(* ================================================================== *)
(** ** Tracking codes *)
(* ================================================================== *)


Lemma chars_length : List.length chars = 32%nat.
Proof. reflexivity. Qed.



Lemma code_space_In (len : nat) (code : jsstring) :
  In code (code_space len) <->
  List.length code = len /\ Forall (fun c => In c chars) code.
Proof.
  revert code; induction len as [|len IH]; intros code; cbn [code_space].
  - split.
    + intros [<- | []]. split; [reflexivity | constructor].
    + intros [L _]. destruct code; [now left | discriminate].
  - rewrite in_flat_map. split.
    + intros [c [Hc H]]. apply in_map_iff in H. destruct H as [t [<- Ht]].
      apply IH in Ht. destruct Ht as [L F]. simpl.
      split; [now rewrite L | now constructor].
    + intros [L F]. destruct code as [|c t]; [discriminate |].
      inversion F; subst. exists c. split; [assumption |].
      apply in_map. apply IH. split; [now inversion L | assumption].
Qed.

Lemma random_index_range (r : Q) :
  (0 <= r < 1)%Q -> 0 <= random_index r < 32.
Proof.
  intros [H0 H1]. unfold random_index.
  change (Z.of_nat (List.length chars)) with 32.
  split.
  - change 0 with (Qfloor 0). apply Qfloor_resp_le.
    apply Qmult_le_0_compat; [exact H0 | discriminate].
  - rewrite Zlt_Qlt.
    apply Qle_lt_trans with (y := (r * inject_Z 32)%Q); [apply Qfloor_le |].
    setoid_replace (inject_Z 32) with (1 * inject_Z 32)%Q at 2 by ring.
    apply Qmult_lt_compat_r; [reflexivity | exact H1].
Qed.

Lemma charAt_chars (i : Z) :
  0 <= i < 32 -> exists c, charAt chars i = [c] /\ In c chars.
Proof.
  intros [H0 H1]. unfold charAt.
  destruct (Z.ltb_spec i 0); [lia |].
  destruct (nth_error chars (Z.to_nat i)) as [c|] eqn:E.
  - exists c. split; [reflexivity | eapply nth_error_In; eauto].
  - apply nth_error_None in E. rewrite chars_length in E. lia.
Qed.

Section Draws.

Variable random : nat -> Q.
Hypothesis random_range : forall i, (0 <= random i < 1)%Q.

Lemma draw_fold (n : nat) (indices : list nat) (acc : jsstring) :
  exists cs,
    fold_left
      (fun code i => code ++ charAt chars (random_index (random (n + i)%nat)))
      indices acc = acc ++ cs /\
    List.length cs = List.length indices /\
    Forall (fun c => In c chars) cs.
Proof.
  revert acc; induction indices as [|i indices IH]; intros acc; simpl.
  - exists []. rewrite app_nil_r. repeat split. constructor.
  - destruct (charAt_chars (random_index (random (n + i)%nat)))
      as [c [E Hc]]; [apply random_index_range, random_range |].
    rewrite E. destruct (IH (acc ++ [c])) as [cs [-> [L F]]].
    exists (c :: cs). rewrite <- app_assoc. simpl.
    repeat split; [now rewrite L | now constructor].
Qed.

Lemma draw_code_shape (n : nat) :
  List.length (draw_code random n) = 8%nat /\
  Forall (fun c => In c chars) (draw_code random n).
Proof.
  unfold draw_code. destruct (draw_fold n (seq 0 8) []) as [cs [-> [L F]]].
  simpl. rewrite L. split; [reflexivity | exact F].
Qed.

End Draws.

Lemma code_taken_false (messages : list Message) (code : jsstring) :
  code_taken messages code = false <->
  forall m, In m messages -> msg_trackingCode m <> code.
Proof.
  unfold code_taken. split.
  - intros H m Hm E.
    assert (T : existsb (fun m => str_eqb (msg_trackingCode m) code) messages
                = true).
    { apply existsb_exists. exists m. split; [exact Hm |].
      apply str_eqb_eq, E. }
    congruence.
  - intros H. destruct (existsb _ messages) eqn:E; [| reflexivity].
    apply existsb_exists in E. destruct E as [m [Hm E]].
    apply str_eqb_eq in E. exfalso. exact (H m Hm E).
Qed.

(** A code that is returned is the draw of some attempt, and it is not
    taken. *)
Lemma generateTrackingCode_sound (random : nat -> Q) (w : World)
    (fuel n : nat) (code : jsstring) :
  generateTrackingCode fuel random n w = Some code ->
  exists k, code = draw_code random (n + 8 * k)%nat /\
            code_taken (getMessages w) code = false.
Proof.
  revert n; induction fuel as [|fuel IH]; intros n; simpl; [discriminate |].
  destruct (code_taken (getMessages w) (draw_code random n)) eqn:T.
  - intros H. apply IH in H. destruct H as [k [-> Hk]].
    exists (S k). split; [f_equal; lia | exact Hk].
  - intros H. inversion H; subst. exists 0%nat.
    split; [f_equal; lia | exact T].
Qed.









Lemma sample_random_range : forall i, (0 <= sample_random i < 1)%Q.
Proof.
  intros i. unfold sample_random. destruct (i <? 8)%nat; split;
    first [discriminate | reflexivity].
Qed.


(* ================================================================== *)
(** ** Creating a record *)
(* ================================================================== *)

(** Were the declared urgency stored next to the effective one, it could
    be read back from the record.  Two submissions that differ only in
    the declared urgency give the same record, so no such reading
    exists. *)
Lemma declared_urgency_not_stored :
  ~ exists declaredUrgency : Message -> Urgency,
      forall fuel random dateNow isoNow w d m w',
        addMessage fuel random dateNow isoNow w d = Some (m, w') ->
        declaredUrgency m = data_urgency d.
Proof.
  intros [declaredUrgency H].
  destruct (addMessage 1 (fun _ => 0%Q) (lit "1765237304000")
              (lit "2025-12-08T23:41:44.000Z") emptyWorld
              (critical_submission baja)) as [[m w']|] eqn:E1;
    [| vm_compute in E1; discriminate].
  assert (E2 : addMessage 1 (fun _ => 0%Q) (lit "1765237304000")
                 (lit "2025-12-08T23:41:44.000Z") emptyWorld
                 (critical_submission alta) = Some (m, w')).
  { rewrite <- E1. vm_compute. reflexivity. }
  apply H in E1. apply H in E2. simpl in E1, E2. congruence.
Qed.

(** C7. When the generator returns a tracking code, [addMessage] returns
    a record and saves the collection with that record in front.  The
    record has status new, no replies and empty notes; its one urgency
    field holds the effective urgency, [adjustUrgency] of the declared
    urgency and of [analyze] of the body; [crisisDetected],
    [crisisLevel] and [crisisKeywords] are taken from that same
    analysis; category, body and mood are those submitted. *)
Theorem addMessage_record :
  forall (fuel : nat) (random : nat -> Q) (dateNow isoNow : jsstring)
         (w : World) (d : MessageData) (code : jsstring),
    generateTrackingCode fuel random 0 w = Some code ->
    exists m,
      addMessage fuel random dateNow isoNow w d
        = Some (m, saveMessages (m :: getMessages w) w) /\
      getMessages (saveMessages (m :: getMessages w) w)
        = m :: getMessages w /\
      msg_trackingCode m = code /\
      msg_status m = new /\
      msg_replies m = [] /\
      msg_counselorNotes m = [] /\
      msg_urgency m =
        adjustUrgency (data_urgency d) (analyze (data_message d)) /\
      msg_crisisDetected m = isCrisis (analyze (data_message d)) /\
      msg_crisisLevel m = crisisLevel (analyze (data_message d)) /\
      msg_crisisKeywords m = detectedKeywords (analyze (data_message d)) /\
      msg_category m = data_category d /\
      msg_message m = data_message d /\
      msg_mood m = data_mood d.
Proof.
  intros fuel random dateNow isoNow w d code H.
  unfold addMessage. rewrite H.
  eexists. split; [reflexivity |]. repeat split.
Qed.

Lemma addMessage_record_witness :
  generateTrackingCode 2 sample_random 0 sample_world = Some (lit "BBBBBBBB")
  /\ exists m,
       addMessage 2 sample_random (lit "1765237305000")
         (lit "2025-12-08T23:41:45.000Z") sample_world
         (critical_submission baja)
       = Some (m, saveMessages [m; sample_message] sample_world) /\
       msg_status m = new /\ msg_urgency m = urgente.
Proof.
  split; [vm_compute; reflexivity |].
  destruct (addMessage_record 2 sample_random (lit "1765237305000")
              (lit "2025-12-08T23:41:45.000Z") sample_world
              (critical_submission baja) (lit "BBBBBBBB")
              ltac:(vm_compute; reflexivity))
    as [m [E [_ [_ [S [_ [_ [U _]]]]]]]].
  exists m. split; [exact E |]. split; [exact S |].
  rewrite U. vm_compute. reflexivity.
Defined.

(* ================================================================== *)
(** ** Replies *)
(* ================================================================== *)

Lemma update_found_first (p : Message -> bool) (f : Message -> Message)
    (l1 l2 : list Message) (m : Message) :
  (forall x, In x l1 -> p x = false) -> p m = true ->
  update_found p f (l1 ++ m :: l2) = Some (l1 ++ f m :: l2).
Proof.
  intros H1 Hm. induction l1 as [|x l1 IH]; simpl.
  - now rewrite Hm.
  - rewrite (H1 x (or_introl eq_refl)), IH; [reflexivity |].
    intros y Hy. apply H1. now right.
Qed.

Lemma findIndex_first (p : Message -> bool) (l1 l2 : list Message)
    (m : Message) :
  (forall x, In x l1 -> p x = false) -> p m = true ->
  findIndex p (l1 ++ m :: l2) = Z.of_nat (List.length l1).
Proof.
  intros H1 Hm. induction l1 as [|x l1 IH]; cbn [findIndex app List.length].
  - now rewrite Hm.
  - rewrite (H1 x (or_introl eq_refl)), IH
      by (intros y Hy; apply H1; now right).
    destruct (Z.eqb_spec (Z.of_nat (List.length l1)) (-1)); lia.
Qed.

Lemma update_at_length (f : Message -> Message) (l1 l2 : list Message)
    (m : Message) :
  update_at (List.length l1) f (l1 ++ m :: l2) = l1 ++ f m :: l2.
Proof. induction l1 as [|x l1 IH]; simpl; [reflexivity | now rewrite IH]. Qed.



(* ================================================================== *)
(** ** Looking a record up *)
(* ================================================================== *)

Lemma find_first (p : Message -> bool) (l : list Message) (m : Message) :
  find p l = Some m <->
  exists l1 l2, l = l1 ++ m :: l2 /\ p m = true /\
                forall x, In x l1 -> p x = false.
Proof.
  induction l as [|y l IH]; simpl.
  - split; [discriminate |]. intros [l1 [l2 [E _]]].
    destruct l1; discriminate.
  - destruct (p y) eqn:Py.
    + split.
      * intros E. inversion E; subst. exists [], l.
        repeat split; [exact Py | intros x []].
      * intros [[|x l1] [l2 [E [Pm H]]]].
        -- inversion E; reflexivity.
        -- inversion E; subst. rewrite (H x (or_introl eq_refl)) in Py.
           discriminate.
    + rewrite IH. split.
      * intros [l1 [l2 [-> [Pm H]]]]. exists (y :: l1), l2.
        repeat split; [exact Pm |]. intros x [<- | Hx]; auto.
      * intros [[|x l1] [l2 [E [Pm H]]]].
        -- inversion E; subst. congruence.
        -- inversion E; subst. exists l1, l2. repeat split; auto.
           intros z Hz. apply H. now right.
Qed.

Lemma find_none_iff (p : Message -> bool) (l : list Message) :
  find p l = None <-> forall x, In x l -> p x = false.
Proof.
  split; [apply find_none |].
  intros H. destruct (find p l) as [m|] eqn:E; [| reflexivity].
  apply find_some in E. destruct E as [Hm Pm].
  rewrite (H m Hm) in Pm. discriminate.
Qed.

Lemma toUpperCase_ascii_upper : upper_on_ascii toUpperCase_ascii.
Proof. intros s _. reflexivity. Qed.

(** C10. [getMessageByCode] is a total function of the query and the
    collection, whatever the builtin does on the strings it is given:
    it gives [None] (the absent result) exactly when no stored tracking
    code equals the query after upper-casing both, and otherwise the
    first record of the collection whose code does; so a record that
    matches makes it return a matching record of the collection.  On
    Basic Latin, where upper-casing raises [a]-[z], the comparison is
    equality up to the case of the letters. *)
Theorem getMessageByCode_spec :
  forall (toUpperCase : jsstring -> jsstring) (w : World) (code : jsstring),
    (getMessageByCode toUpperCase w code = None <->
     forall m, In m (getMessages w) -> ~ code_matches toUpperCase code m) /\
    (forall m,
       getMessageByCode toUpperCase w code = Some m <->
       exists l1 l2,
         getMessages w = l1 ++ m :: l2 /\ code_matches toUpperCase code m /\
         forall x, In x l1 -> ~ code_matches toUpperCase code x) /\
    (forall m,
       In m (getMessages w) -> code_matches toUpperCase code m ->
       exists m', getMessageByCode toUpperCase w code = Some m' /\
                  In m' (getMessages w) /\
                  code_matches toUpperCase code m') /\
    (upper_on_ascii toUpperCase ->
     forall m,
       basic_latin code -> basic_latin (msg_trackingCode m) ->
       (code_matches toUpperCase code m <->
        map ascii_upper_unit (msg_trackingCode m)
        = map ascii_upper_unit code)).
Proof.
  intros toUpperCase w code. unfold getMessageByCode, code_matches.
  set (p := fun m => str_eqb (toUpperCase (msg_trackingCode m))
                             (toUpperCase code)).
  assert (Pt : forall m, p m = true <->
                 toUpperCase (msg_trackingCode m) = toUpperCase code)
    by (intros m; apply str_eqb_eq).
  assert (Pf : forall m, p m = false <->
                 toUpperCase (msg_trackingCode m) <> toUpperCase code)
    by (intros m; apply str_eqb_neq).
  split; [| split; [| split]].
  - rewrite find_none_iff. split; intros H m Hm; apply Pf, H, Hm.
  - intros m. rewrite find_first. split.
    + intros [l1 [l2 [E [Pm H]]]]. exists l1, l2.
      repeat split; [exact E | now apply Pt |].
      intros x Hx. now apply Pf, H.
    + intros [l1 [l2 [E [Pm H]]]]. exists l1, l2.
      repeat split; [exact E | now apply Pt |].
      intros x Hx. now apply Pf, H.
  - intros m Hm Cm.
    destruct (find p (getMessages w)) as [m'|] eqn:E.
    + apply find_some in E. destruct E as [Hm' Pm'].
      exists m'. repeat split; [exact Hm' | now apply Pt].
    + exfalso. rewrite find_none_iff in E. apply Pt in Cm.
      rewrite (E m Hm) in Cm. discriminate.
  - intros Hu m Hc Hm. rewrite (Hu _ Hc), (Hu _ Hm). tauto.
Qed.

Lemma getMessageByCode_spec_witness :
  In sample_message (getMessages sample_world) /\
  code_matches toUpperCase_ascii (lit "aaaaAAAA") sample_message /\
  (exists m',
     getMessageByCode toUpperCase_ascii sample_world (lit "aaaaAAAA")
     = Some m' /\
     In m' (getMessages sample_world) /\
     code_matches toUpperCase_ascii (lit "aaaaAAAA") m') /\
  map ascii_upper_unit (msg_trackingCode sample_message)
  = map ascii_upper_unit (lit "aaaaAAAA").
Proof.
  split; [left; reflexivity |]. split; [reflexivity |].
  destruct (getMessageByCode_spec toUpperCase_ascii sample_world
              (lit "aaaaAAAA")) as [_ [_ [H A]]].
  split; [exact (H sample_message (or_introl eq_refl) eq_refl) |].
  apply (A toUpperCase_ascii_upper sample_message);
    [repeat constructor | repeat constructor | reflexivity].
Defined.

(* ================================================================== *)
(** ** The classifier: what is detected *)
(* ================================================================== *)

Lemma Category_eqb_eq (a b : Category) : Category_eqb a b = true <-> a = b.
Proof. destruct a, b; simpl; split; congruence. Qed.

Lemma uniq_In {A : Type} (eqb : A -> A -> bool)
    (eqb_eq : forall a b, eqb a b = true <-> a = b) (l : list A) (x : A) :
  In x (uniq eqb l) <-> In x l.
Proof.
  induction l as [|y l IH]; simpl; [tauto |].
  rewrite filter_In, IH. split.
  - intros [E | [H _]]; auto.
  - intros [E | H]; [now left |].
    destruct (eqb y x) eqn:B.
    + left. now apply eqb_eq.
    + right. split; [exact H | reflexivity].
Qed.

Lemma uniq_NoDup {A : Type} (eqb : A -> A -> bool)
    (eqb_eq : forall a b, eqb a b = true <-> a = b) (l : list A) :
  NoDup (uniq eqb l).
Proof.
  induction l as [|y l IH]; simpl; constructor.
  - rewrite filter_In. intros [_ H].
    assert (E : eqb y y = true) by now apply eqb_eq.
    rewrite E in H. discriminate.
  - now apply NoDup_filter.
Qed.

Lemma scan_words_detected (lowerMessage : jsstring) (category : Category)
    (words : list jsstring) (st : Scan) :
  scan_detected (fold_left (scan_word lowerMessage category) words st) =
  scan_detected st ++
  filter (fun p => includes lowerMessage (fst p))
         (map (fun w => (w, category)) words).
Proof.
  revert st; induction words as [|w words IH]; intros st; simpl.
  - now rewrite app_nil_r.
  - rewrite IH. unfold scan_word.
    destruct (includes lowerMessage w); simpl.
    + now rewrite <- app_assoc.
    + reflexivity.
Qed.

Lemma scan_table_detected (lowerMessage : jsstring)
    (table : list (Category * list jsstring)) (st : Scan) :
  scan_detected (fold_left (scan_entry lowerMessage) table st) =
  scan_detected st ++
  filter (fun p => includes lowerMessage (fst p)) (pairs_of table).
Proof.
  revert st; induction table as [|[category words] table IH]; intros st;
    simpl.
  - now rewrite app_nil_r.
  - rewrite IH. unfold scan_entry; simpl. rewrite scan_words_detected.
    now rewrite filter_app, app_assoc.
Qed.

Lemma includes_hits (text : jsstring) :
  filter (fun p => includes (toLowerCase text) (fst p)) keyword_pairs
  = hits text.
Proof.
  apply filter_ext_in. intros p Hp.
  apply includes_toLowerCase, keyword_pairs_lower, Hp.
Qed.

(** The two accumulators after the loops, in terms of the hits. *)
Lemma scan_keywords_detected (text : jsstring) :
  scan_detected (scan_keywords (toLowerCase text)) = hits text.
Proof.
  unfold scan_keywords. rewrite scan_table_detected.
  cbn [scan_detected app]. fold keyword_pairs.
  apply includes_hits.
Qed.

Lemma scan_keywords_score (text : jsstring) :
  scan_score (scan_keywords (toLowerCase text)) =
  sumZ (map (fun p => category_weight (snd p)) (hits text)).
Proof.
  unfold scan_keywords. rewrite scan_table_score. simpl scan_score.
  rewrite Z.add_0_l. fold keyword_pairs. f_equal. f_equal.
  apply includes_hits.
Qed.

(** The fields of the result, one by one. *)
Lemma analyze_fields (text : jsstring) :
  severityScore (analyze text) =
    sumZ (map (fun p => category_weight (snd p)) (hits text)) /\
  crisisLevel (analyze text) =
    fst (crisis_of_score (severityScore (analyze text))) /\
  isCrisis (analyze text) =
    snd (crisis_of_score (severityScore (analyze text))) /\
  detectedKeywords (analyze text) = map fst (hits text) /\
  categories (analyze text) = uniq Category_eqb (map snd (hits text)).
Proof.
  unfold analyze.
  destruct (crisis_of_score (scan_score (scan_keywords (toLowerCase text))))
    as [lvl crisis] eqn:E.
  simpl. rewrite E, scan_keywords_detected, scan_keywords_score.
  repeat split; reflexivity.
Qed.

Lemma keywords_NoDup : NoDup (map fst keyword_pairs).
Proof.
  replace (map fst keyword_pairs)
    with (nodup (list_eq_dec N.eq_dec) (map fst keyword_pairs))
    by (vm_compute; reflexivity).
  apply NoDup_nodup.
Qed.

(** Keeping some pairs of a table with distinct keywords leaves the
    keywords distinct. *)
Lemma kept_keywords_NoDup (keep : jsstring * Category -> bool)
    (pairs : list (jsstring * Category)) :
  NoDup (map fst pairs) -> NoDup (map fst (filter keep pairs)).
Proof.
  intros N. induction pairs as [|pair pairs IH]; [constructor |].
  cbn [map] in N. apply NoDup_cons_iff in N. destruct N as [Fresh N].
  cbn [filter]. destruct (keep pair); [| now apply IH].
  cbn [map]. constructor; [| now apply IH].
  intros Hin. apply Fresh. apply in_map_iff in Hin.
  destruct Hin as [other [E Hother]]. apply filter_In in Hother.
  apply in_map_iff. exists other. tauto.
Qed.

(** X1. [detectedKeywords] lists, in the order of the table, the
    keywords of the table that occur in the text up to letter case; no
    keyword is listed twice, however often it occurs in the text. *)
Theorem analyze_detectedKeywords :
  forall text : jsstring,
    detectedKeywords (analyze text) =
      filter (fun kw => occurs_nocase kw text) (map fst keyword_pairs) /\
    NoDup (detectedKeywords (analyze text)) /\
    (forall kw,
       In kw (detectedKeywords (analyze text)) <->
       In kw (map fst keyword_pairs) /\ occurs_nocase kw text = true).
Proof.
  intros text. destruct (analyze_fields text) as [_ [_ [_ [D _]]]].
  assert (F : map fst (hits text) =
              filter (fun kw => occurs_nocase kw text)
                     (map fst keyword_pairs)).
  { unfold hits. induction keyword_pairs as [|p l IH]; simpl;
      [reflexivity |].
    destruct (occurs_nocase (fst p) text); simpl; now rewrite IH. }
  rewrite D. split; [exact F |]. split.
  - unfold hits. apply kept_keywords_NoDup, keywords_NoDup.
  - intros kw. rewrite F, filter_In. tauto.
Qed.

(** X2. [categories] has every category at most once, and a category is
    in it exactly when one of its keywords occurs in the text. *)
Theorem analyze_categories :
  forall text : jsstring,
    NoDup (categories (analyze text)) /\
    (forall c,
       In c (categories (analyze text)) <->
       exists kw, In (kw, c) keyword_pairs /\ occurs_nocase kw text = true).
Proof.
  intros text. destruct (analyze_fields text) as [_ [_ [_ [_ C]]]].
  rewrite C. split; [apply uniq_NoDup, Category_eqb_eq |].
  intros c. rewrite uniq_In by apply Category_eqb_eq.
  rewrite in_map_iff. unfold hits. split.
  - intros [[kw c'] [E H]]. simpl in E. subst c'.
    apply filter_In in H. exists kw. exact H.
  - intros [kw H]. exists (kw, c). split; [reflexivity |].
    apply filter_In. exact H.
Qed.

Lemma category_weight_ge_5 (c : Category) : 5 <= category_weight c.
Proof. destruct c; simpl; lia. Qed.

Lemma sum_weights_nonneg (l : list (jsstring * Category)) :
  0 <= sumZ (map (fun p => category_weight (snd p)) l).
Proof.
  induction l as [|p l IH]; simpl; [lia |].
  pose proof (category_weight_ge_5 (snd p)). lia.
Qed.

(** X3. The level of [analyze] is decided by the hits alone: no hit
    gives none, exactly one hit gives moderate for a severe keyword,
    critical for a suicide keyword and high otherwise, and two or more
    hits give critical. *)
Theorem analyze_level_of_hits :
  forall text : jsstring,
    crisisLevel (analyze text) = level_of_hits (hits text).
Proof.
  intros text. destruct (analyze_fields text) as [S [L _]].
  rewrite L, S. destruct (hits text) as [|[kw c] [|q r]].
  - reflexivity.
  - destruct c; reflexivity.
  - cbn [map sumZ fold_right snd level_of_hits].
    pose proof (category_weight_ge_5 c).
    pose proof (category_weight_ge_5 (snd q)).
    pose proof (sum_weights_nonneg r). unfold sumZ in *.
    unfold crisis_of_score.
    destruct (Z.leb_spec 10
                (category_weight c + (category_weight (snd q) +
                   fold_right Z.add 0
                     (map (fun p => category_weight (snd p)) r))));
      [destruct c; reflexivity | lia].
Qed.

(** X4. A message is flagged as a crisis exactly when at least one
    keyword of the table occurs in it; the score is then at least 5,
    and it is 0 otherwise. *)
Theorem analyze_isCrisis_iff_hit :
  forall text : jsstring,
    (isCrisis (analyze text) = true <->
     exists kw c, In (kw, c) keyword_pairs /\ occurs_nocase kw text = true) /\
    (isCrisis (analyze text) = true <-> detectedKeywords (analyze text) <> []) /\
    (isCrisis (analyze text) = true -> 5 <= severityScore (analyze text)) /\
    (isCrisis (analyze text) = false -> severityScore (analyze text) = 0).
Proof.
  intros text. destruct (analyze_fields text) as [S [_ [I [D _]]]].
  rewrite I, D, S.
  assert (H0 : hits text = [] ->
               snd (crisis_of_score
                      (sumZ (map (fun p => category_weight (snd p))
                                 (hits text)))) = false).
  { intros ->. reflexivity. }
  assert (H1 : hits text <> [] ->
               5 <= sumZ (map (fun p => category_weight (snd p)) (hits text))).
  { destruct (hits text) as [|p r]; [congruence |]. intros _. simpl.
    pose proof (category_weight_ge_5 (snd p)).
    pose proof (sum_weights_nonneg r). lia. }
  assert (H2 : forall s, 5 <= s -> snd (crisis_of_score s) = true).
  { intros s Hs. unfold crisis_of_score.
    destruct (Z.leb_spec 10 s); [reflexivity |].
    destruct (Z.leb_spec 7 s); [reflexivity |].
    destruct (Z.leb_spec 5 s); [reflexivity | lia]. }
  destruct (hits text) as [|[kw c] r] eqn:E.
  - rewrite (H0 eq_refl). simpl. repeat split; try discriminate;
      try congruence.
    intros [kw [c [Hin Ho]]].
    assert (Hh : In (kw, c) (hits text))
      by (apply filter_In; split; assumption).
    rewrite E in Hh. destruct Hh.
  - assert (N : (kw, c) :: r <> []) by discriminate.
    specialize (H1 N). rewrite (H2 _ H1).
    repeat split; try discriminate; try (intros _; exact H1).
    intros _. exists kw, c.
    assert (Hh : In (kw, c) (hits text)) by (rewrite E; now left).
    apply filter_In in Hh. exact Hh.
Qed.

(* ================================================================== *)
(** ** The classifier: longer texts, nested keywords *)
(* ================================================================== *)

Lemma occurs_nocase_within (keyword pre mid post : jsstring) :
  occurs_nocase keyword mid = true ->
  occurs_nocase keyword (pre ++ mid ++ post) = true.
Proof.
  rewrite !occurs_nocase_spec.
  intros [a [b [c [-> E]]]].
  exists (pre ++ a), b, (c ++ post). split; [| exact E].
  now rewrite <- !app_assoc.
Qed.

Lemma occurs_nocase_inner (inner outer text a b : jsstring) :
  outer = a ++ inner ++ b ->
  occurs_nocase outer text = true ->
  occurs_nocase inner text = true.
Proof.
  intros ->. rewrite !occurs_nocase_spec.
  intros [pre [mid [post [-> E]]]]. unfold toLowerCase in E.
  rewrite !map_app in E.
  apply map_eq_app in E. destruct E as [m1 [m23 [-> [E1 E]]]].
  apply map_eq_app in E. destruct E as [m2 [m3 [-> [E2 E3]]]].
  exists (pre ++ m1), m2, (m3 ++ post). split; [| exact E2].
  now rewrite <- !app_assoc.
Qed.

Lemma sum_filter_le {A : Type} (f : A -> Z) (p q : A -> bool) (l : list A) :
  (forall x, 0 <= f x) ->
  (forall x, In x l -> p x = true -> q x = true) ->
  sumZ (map f (filter p l)) <= sumZ (map f (filter q l)).
Proof.
  intros Hf. induction l as [|x l IH]; intros H; simpl; [lia |].
  assert (IH' := IH (fun y Hy => H y (or_intror Hy))).
  pose proof (Hf x).
  destruct (p x) eqn:Px.
  - rewrite (H x (or_introl eq_refl) Px). simpl. lia.
  - destruct (q x); simpl; lia.
Qed.

Lemma crisis_of_score_mono (s1 s2 : Z) :
  s1 <= s2 ->
  level_rank (fst (crisis_of_score s1)) <= level_rank (fst (crisis_of_score s2)).
Proof.
  intros H. unfold crisis_of_score.
  destruct (Z.leb_spec 10 s1), (Z.leb_spec 10 s2),
           (Z.leb_spec 7 s1), (Z.leb_spec 7 s2),
           (Z.leb_spec 5 s1), (Z.leb_spec 5 s2); simpl; lia.
Qed.

(** X5. Text put before or after a message never lowers the analysis:
    every keyword detected in the message is detected in the longer
    text, the score and the level do not go down, and a crisis stays a
    crisis. *)
Theorem analyze_monotone :
  forall pre mid post : jsstring,
    incl (detectedKeywords (analyze mid))
         (detectedKeywords (analyze (pre ++ mid ++ post))) /\
    severityScore (analyze mid)
      <= severityScore (analyze (pre ++ mid ++ post)) /\
    level_rank (crisisLevel (analyze mid))
      <= level_rank (crisisLevel (analyze (pre ++ mid ++ post))) /\
    (isCrisis (analyze mid) = true ->
     isCrisis (analyze (pre ++ mid ++ post)) = true).
Proof.
  intros pre mid post.
  destruct (analyze_fields mid) as [S1 [L1 [I1 [D1 _]]]].
  destruct (analyze_fields (pre ++ mid ++ post)) as [S2 [L2 [I2 [D2 _]]]].
  assert (Hs : severityScore (analyze mid)
               <= severityScore (analyze (pre ++ mid ++ post))).
  { rewrite S1, S2. unfold hits. apply sum_filter_le.
    - intros p. pose proof (category_weight_ge_5 (snd p)). lia.
    - intros p _. apply occurs_nocase_within. }
  split; [| split; [exact Hs | split]].
  - rewrite D1, D2. intros kw H. apply in_map_iff in H.
    destruct H as [p [<- Hp]]. apply in_map. unfold hits in *.
    apply filter_In in Hp. apply filter_In.
    split; [tauto | apply occurs_nocase_within; tauto].
  - rewrite L1, L2. now apply crisis_of_score_mono.
  - rewrite I1, I2. revert Hs.
    generalize (severityScore (analyze mid)),
               (severityScore (analyze (pre ++ mid ++ post))).
    intros s1 s2 Hs. unfold crisis_of_score.
    destruct (Z.leb_spec 10 s1), (Z.leb_spec 10 s2),
             (Z.leb_spec 7 s1), (Z.leb_spec 7 s2),
             (Z.leb_spec 5 s1), (Z.leb_spec 5 s2); simpl;
      congruence || lia.
Qed.

Lemma sum_filter_two {A : Type} (f : A -> Z) (p : A -> bool) (l : list A)
    (a b : A) :
  (forall x, 0 <= f x) ->
  In a l -> In b l -> a <> b -> p a = true -> p b = true ->
  f a + f b <= sumZ (map f (filter p l)).
Proof.
  intros Hf Ha Hb Hab Pa Pb.
  assert (One : forall (l' : list A) (x : A),
            In x l' -> p x = true -> f x <= sumZ (map f (filter p l'))).
  { induction l' as [|y l' IH]; intros x Hin Px; [destruct Hin |].
    destruct Hin as [E | Hx]; simpl.
    - subst y. rewrite Px. simpl.
      assert (0 <= sumZ (map f (filter p l'))).
      { clear - Hf. induction (filter p l') as [|z r IHr]; simpl;
          [lia | pose proof (Hf z); lia]. }
      lia.
    - specialize (IH x Hx Px). pose proof (Hf y).
      destruct (p y); simpl; lia. }
  induction l as [|y l IH]; [destruct Ha |].
  simpl. destruct Ha as [Ea | Ha], Hb as [Eb | Hb].
  - congruence.
  - subst y. rewrite Pa. simpl. pose proof (One l b Hb Pb). lia.
  - subst y. rewrite Pb. simpl. pose proof (One l a Ha Pa). lia.
  - specialize (IH Ha Hb). pose proof (Hf y).
    destruct (p y); simpl; lia.
Qed.

(** X6. Two keywords of the table lie inside longer ones: [matar]
    (violence) inside [matarme] (suicide) and [muerto] (death) inside
    [mejor muerto] (suicide).  Whenever the longer keyword is detected
    the shorter one is detected too, so the score is at least 19,
    respectively 17. *)
Theorem nested_keywords_compound :
  forall text : jsstring,
    (In (lit "matarme") (detectedKeywords (analyze text)) ->
     In (lit "matar") (detectedKeywords (analyze text)) /\
     19 <= severityScore (analyze text)) /\
    (In (lit "mejor muerto") (detectedKeywords (analyze text)) ->
     In (lit "muerto") (detectedKeywords (analyze text)) /\
     17 <= severityScore (analyze text)).
Proof.
  intros text. destruct (analyze_fields text) as [S [_ [_ [D _]]]].
  rewrite D, S.
  assert (Hin : forall kw, In kw (map fst (hits text)) ->
                occurs_nocase kw text = true).
  { intros kw H. apply in_map_iff in H. destruct H as [p [<- Hp]].
    apply filter_In in Hp. tauto. }
  assert (Hout : forall kw c, In (kw, c) keyword_pairs ->
                 occurs_nocase kw text = true ->
                 In kw (map fst (hits text))).
  { intros kw c Hk Ho. apply in_map_iff. exists (kw, c).
    split; [reflexivity | apply filter_In; split; assumption]. }
  assert (Hw : forall p : jsstring * Category, 0 <= category_weight (snd p)).
  { intros p. pose proof (category_weight_ge_5 (snd p)). lia. }
  split; intros H; apply Hin in H.
  - assert (H' : occurs_nocase (lit "matar") text = true).
    { apply (occurs_nocase_inner (lit "matar") (lit "matarme") text
               [] (lit "me")); [reflexivity | exact H]. }
    split.
    + apply (Hout _ violence); [| exact H'].
      vm_compute. tauto.
    + unfold hits.
      apply (sum_filter_two (fun p => category_weight (snd p))
               (fun p => occurs_nocase (fst p) text) keyword_pairs
               (lit "matarme", suicide) (lit "matar", violence));
        try assumption; try discriminate; vm_compute; tauto.
  - assert (H' : occurs_nocase (lit "muerto") text = true).
    { apply (occurs_nocase_inner (lit "muerto") (lit "mejor muerto") text
               (lit "mejor ") []); [reflexivity | exact H]. }
    split.
    + apply (Hout _ death); [| exact H'].
      vm_compute. tauto.
    + unfold hits.
      apply (sum_filter_two (fun p => category_weight (snd p))
               (fun p => occurs_nocase (fst p) text) keyword_pairs
               (lit "mejor muerto", suicide) (lit "muerto", death));
        try assumption; try discriminate; vm_compute; tauto.
Qed.

(* ================================================================== *)
(** ** The escalator *)
(* ================================================================== *)

(** X7. Apart from the one case of a high level with urgente declared,
    the adjusted urgency is the larger of the declared urgency and the
    level, on the scales baja < media < alta < urgente and none <
    moderate < high < critical put side by side; so it is never below
    the level, and a level none changes nothing. *)
Theorem adjustUrgency_is_max :
  forall (u : Urgency) (a : Analysis),
    ((crisisLevel a = high /\ u = urgente) \/
     urgency_rank (adjustUrgency u a)
       = Z.max (urgency_rank u) (level_rank (crisisLevel a))) /\
    level_rank (crisisLevel a) <= urgency_rank (adjustUrgency u a) /\
    (crisisLevel a = none <-> forall v, adjustUrgency v a = v).
Proof.
  intros u a. unfold adjustUrgency. split; [| split].
  - destruct (crisisLevel a), u; simpl; auto.
  - destruct (crisisLevel a), u; simpl; lia.
  - split.
    + intros -> v. destruct v; reflexivity.
    + intros H. pose proof (H baja) as Hb. pose proof (H urgente) as Hu.
      destruct (crisisLevel a); simpl in *; congruence.
Qed.

(** X8. Adjusting twice is adjusting once, and a higher declared
    urgency never ends below a lower one under the same analysis. *)
Theorem adjustUrgency_idempotent_monotone :
  forall (a : Analysis) (u v : Urgency),
    adjustUrgency (adjustUrgency u a) a = adjustUrgency u a /\
    (urgency_rank u <= urgency_rank v ->
     urgency_rank (adjustUrgency u a) <= urgency_rank (adjustUrgency v a)).
Proof.
  intros a u v. unfold adjustUrgency.
  destruct (crisisLevel a), u, v; simpl; split; try reflexivity; lia.
Qed.

(* ================================================================== *)
(** ** Strings: trimming and the letter case of codes *)
(* ================================================================== *)

Lemma trimStart_spaces (a s : jsstring) :
  Forall (fun c => is_space c = true) a -> trimStart (a ++ s) = trimStart s.
Proof.
  induction 1 as [|c a Hc Ha IH]; simpl; [reflexivity |].
  now rewrite Hc.
Qed.

Lemma trimStart_nil (s : jsstring) :
  trimStart s = [] <-> Forall (fun c => is_space c = true) s.
Proof.
  induction s as [|c s IH]; simpl.
  - split; [constructor | reflexivity].
  - destruct (is_space c) eqn:E.
    + rewrite IH. split; [now constructor | now inversion 1].
    + split; [discriminate |]. inversion 1; congruence.
Qed.

Lemma trimStart_head (s : jsstring) :
  match trimStart s with
  | [] => True
  | c :: _ => is_space c = false
  end.
Proof.
  induction s as [|c s IH]; simpl; [exact I |].
  destruct (is_space c) eqn:E; [exact IH | exact E].
Qed.

Lemma trim_nil (s : jsstring) :
  trim s = [] <-> Forall (fun c => is_space c = true) s.
Proof.
  unfold trim. split.
  - intros H.
    assert (H1 : trimStart (rev (trimStart s)) = []).
    { destruct (trimStart (rev (trimStart s))) as [|c t]; [reflexivity |].
      simpl in H. destruct (rev t); discriminate. }
    apply trimStart_nil in H1. apply Forall_rev in H1.
    rewrite rev_involutive in H1.
    pose proof (trimStart_head s) as Hh.
    destruct (trimStart s) as [|c t] eqn:E.
    + now apply trimStart_nil.
    + inversion H1; congruence.
  - intros H. apply trimStart_nil in H. rewrite H. reflexivity.
Qed.

(** Trimming removes the white space around a string that has none. *)
Lemma trim_padded (a s b : jsstring) :
  Forall (fun c => is_space c = true) a ->
  Forall (fun c => is_space c = true) b ->
  Forall (fun c => is_space c = false) s ->
  trim (a ++ s ++ b) = s.
Proof.
  intros Ha Hb Hs. unfold trim. rewrite trimStart_spaces by exact Ha.
  destruct s as [|c s].
  - simpl. apply trimStart_nil in Hb. rewrite Hb. reflexivity.
  - assert (E1 : trimStart ((c :: s) ++ b) = (c :: s) ++ b).
    { simpl. inversion Hs; subst.
      now replace (is_space c) with false by congruence. }
    rewrite E1, rev_app_distr.
    rewrite trimStart_spaces by now apply Forall_rev.
    assert (E2 : trimStart (rev (c :: s)) = rev (c :: s)).
    { apply Forall_rev in Hs. destruct (rev (c :: s)) as [|x t];
        [reflexivity |].
      simpl. inversion Hs; subst.
      now replace (is_space x) with false by congruence. }
    rewrite E2. apply rev_involutive.
Qed.

(** The characters of the alphabet are upper-case Basic Latin and are
    not white space, also once lowered. *)
Lemma chars_case (c : N) :
  In c chars ->
  ascii_upper_unit c = c /\ ascii_upper_unit (lower_unit c) = c /\
  (c < 128)%N /\ (lower_unit c < 128)%N /\
  is_space c = false /\ is_space (lower_unit c) = false.
Proof.
  assert (H : Forall (fun c => ascii_upper_unit c = c /\
                               ascii_upper_unit (lower_unit c) = c /\
                               (c < 128)%N /\ (lower_unit c < 128)%N /\
                               is_space c = false /\
                               is_space (lower_unit c) = false) chars).
  { repeat constructor. }
  rewrite Forall_forall in H. apply H.
Qed.

(** A code over the alphabet is its own upper-casing, and so is its
    lowering once raised, for every builtin that acts on Basic Latin
    as described. *)
Lemma code_case (toUpperCase : jsstring -> jsstring) (code : jsstring) :
  upper_on_ascii toUpperCase ->
  Forall (fun c => In c chars) code ->
  toUpperCase code = code /\
  toUpperCase (toLowerCase code) = code /\
  Forall (fun c => is_space c = false) code /\
  Forall (fun c => is_space c = false) (toLowerCase code).
Proof.
  intros Hu F.
  assert (G : basic_latin code /\ basic_latin (toLowerCase code) /\
              map ascii_upper_unit code = code /\
              map ascii_upper_unit (toLowerCase code) = code /\
              Forall (fun c => is_space c = false) code /\
              Forall (fun c => is_space c = false) (toLowerCase code)).
  { unfold basic_latin, toLowerCase.
    induction F as [|c code Hc Hcode [I1 [I2 [I3 [I4 [I5 I6]]]]]];
      cbn [map].
    - repeat split; constructor.
    - destruct (chars_case c Hc) as [U [UL [A [AL [S SL]]]]].
      rewrite U, UL, I3, I4.
      repeat split; constructor; assumption. }
  destruct G as [B [BL [M [ML [S SL]]]]].
  rewrite (Hu _ B), (Hu _ BL). repeat split; assumption.
Qed.

(* ================================================================== *)
(** ** The collection: what one call changes *)
(* ================================================================== *)

Lemma update_found_some (p : Message -> bool) (f : Message -> Message)
    (l l' : list Message) :
  update_found p f l = Some l' ->
  exists l1 m l2,
    l = l1 ++ m :: l2 /\ l' = l1 ++ f m :: l2 /\ p m = true /\
    forall x, In x l1 -> p x = false.
Proof.
  revert l'; induction l as [|y l IH]; intros l'; simpl; [discriminate |].
  destruct (p y) eqn:Py.
  - intros E. inversion E; subst. exists [], y, l.
    repeat split; [exact Py | intros x []].
  - destruct (update_found p f l) as [r|]; [| discriminate].
    intros E. inversion E; subst.
    destruct (IH r eq_refl) as [l1 [m [l2 [-> [-> [Pm H]]]]]].
    exists (y :: l1), m, l2. repeat split; [exact Pm |].
    intros x [<- | Hx]; auto.
Qed.

Lemma update_found_none (p : Message -> bool) (f : Message -> Message)
    (l : list Message) :
  update_found p f l = None <-> forall x, In x l -> p x = false.
Proof.
  induction l as [|y l IH]; simpl.
  - split; [intros _ x [] | reflexivity].
  - destruct (p y) eqn:Py.
    + split; [discriminate |]. intros H.
      rewrite (H y (or_introl eq_refl)) in Py. discriminate.
    + destruct (update_found p f l) as [r|].
      * split; [discriminate |]. intros H.
        assert (N : Some r = None).
        { apply IH. intros x Hx. apply H. now right. }
        discriminate.
      * split; [| reflexivity]. intros _ x [<- | Hx]; [exact Py |].
        now apply IH.
Qed.

Lemma findIndex_ge (p : Message -> bool) (l : list Message) :
  -1 <= findIndex p l.
Proof.
  induction l as [|y l IH]; simpl; [lia |].
  destruct (p y); [lia |].
  destruct (Z.eqb_spec (findIndex p l) (-1)); lia.
Qed.

Lemma findIndex_none (p : Message -> bool) (l : list Message) :
  findIndex p l = -1 <-> forall x, In x l -> p x = false.
Proof.
  induction l as [|y l IH]; simpl.
  - split; [intros _ x [] | reflexivity].
  - destruct (p y) eqn:Py.
    + split; [discriminate |]. intros H.
      rewrite (H y (or_introl eq_refl)) in Py. discriminate.
    + pose proof (findIndex_ge p l) as G.
      destruct (Z.eqb_spec (findIndex p l) (-1)) as [E | E].
      * split; [| reflexivity]. intros _ x [<- | Hx]; [exact Py |].
        now apply IH.
      * split; [lia |]. intros H. exfalso. apply E, IH.
        intros x Hx. apply H. now right.
Qed.

Lemma findIndex_some (p : Message -> bool) (l : list Message) :
  findIndex p l <> -1 ->
  exists l1 m l2,
    l = l1 ++ m :: l2 /\ p m = true /\
    (forall x, In x l1 -> p x = false) /\
    findIndex p l = Z.of_nat (List.length l1).
Proof.
  induction l as [|y l IH]; simpl; [congruence |].
  destruct (p y) eqn:Py.
  - intros _. exists [], y, l. repeat split; [exact Py | intros x []].
  - destruct (Z.eqb_spec (findIndex p l) (-1)) as [E | E]; [congruence |].
    intros _. destruct (IH E) as [l1 [m [l2 [-> [Pm [H F]]]]]].
    exists (y :: l1), m, l2. repeat split; [exact Pm | |].
    + intros x [<- | Hx]; auto.
    + rewrite F. simpl List.length. lia.
Qed.

Lemma same_submission_refl (m : Message) : same_submission m m.
Proof. repeat split. Qed.

Lemma later_version_refl (m : Message) : later_version m m.
Proof.
  split; [apply same_submission_refl |]. exists []. now rewrite app_nil_r.
Qed.

Lemma later_version_trans (a b c : Message) :
  later_version a b -> later_version b c -> later_version a c.
Proof.
  intros [S1 [r1 R1]] [S2 [r2 R2]]. split.
  - unfold same_submission in *.
    repeat match goal with H : _ /\ _ |- _ => destruct H end.
    repeat split; congruence.
  - exists (r1 ++ r2). rewrite R2, R1. now rewrite app_assoc.
Qed.

Lemma counselor_reply_later (replyText notes isoNow : jsstring)
    (m : Message) :
  later_version m (counselor_reply replyText notes isoNow m).
Proof.
  unfold counselor_reply. simpl.
  destruct (Status_eqb (msg_status m) new
            || Status_eqb (msg_status m) in_review);
    (split; [repeat split | eexists; reflexivity]).
Qed.

Lemma student_reply_later (replyText isoNow : jsstring) (m : Message) :
  later_version m (student_reply replyText isoNow m).
Proof. split; [repeat split | eexists; reflexivity]. Qed.

Lemma set_status_later (s : Status) (m : Message) :
  later_version m (set_status s m).
Proof.
  split; [repeat split |]. exists []. simpl. now rewrite app_nil_r.
Qed.

(** What the three handlers that change a record do to the collection:
    one record is replaced, in its place, by a later version of it. *)
Lemma handleReplySubmit_shape (messageId replyText notes isoNow : jsstring)
    (w w' : World) :
  handleReplySubmit messageId replyText notes isoNow w = Some w' ->
  exists l1 m l2,
    getMessages w = l1 ++ m :: l2 /\
    w' = saveMessages
           (l1 ++ counselor_reply replyText notes isoNow m :: l2) w /\
    msg_id m = messageId /\
    forall x, In x l1 -> msg_id x <> messageId.
Proof.
  unfold handleReplySubmit.
  destruct (update_found _ _ (getMessages w)) as [ms|] eqn:E;
    [| discriminate].
  intros H. inversion H; subst.
  apply update_found_some in E.
  destruct E as [l1 [m [l2 [E1 [-> [Pm Hl]]]]]].
  exists l1, m, l2. repeat split; [exact E1 | now apply str_eqb_eq |].
  intros x Hx. now apply str_eqb_neq, Hl.
Qed.

Lemma updateMessageStatus_shape (messageId : jsstring) (newStatus : Status)
    (w w' : World) :
  updateMessageStatus messageId newStatus w = Some w' ->
  exists l1 m l2,
    getMessages w = l1 ++ m :: l2 /\
    w' = saveMessages (l1 ++ set_status newStatus m :: l2) w /\
    msg_id m = messageId /\
    forall x, In x l1 -> msg_id x <> messageId.
Proof.
  unfold updateMessageStatus.
  destruct (update_found _ _ (getMessages w)) as [ms|] eqn:E;
    [| discriminate].
  intros H. inversion H; subst.
  apply update_found_some in E.
  destruct E as [l1 [m [l2 [E1 [-> [Pm Hl]]]]]].
  exists l1, m, l2. repeat split; [exact E1 | now apply str_eqb_eq |].
  intros x Hx. now apply str_eqb_neq, Hl.
Qed.

Lemma handleStudentReply_shape (trackingCode inputValue isoNow : jsstring)
    (w w' : World) :
  handleStudentReply trackingCode inputValue isoNow w = ReplySaved w' ->
  trim inputValue <> [] /\
  exists l1 m l2,
    getMessages w = l1 ++ m :: l2 /\
    w' = saveMessages
           (l1 ++ student_reply (trim inputValue) isoNow m :: l2) w /\
    msg_trackingCode m = trackingCode /\
    forall x, In x l1 -> msg_trackingCode x <> trackingCode.
Proof.
  unfold handleStudentReply.
  destruct (trim inputValue) as [|c t] eqn:T; [discriminate |].
  set (p := fun m => str_eqb (msg_trackingCode m) trackingCode).
  destruct (Z.eqb_spec (findIndex p (getMessages w)) (-1)) as [E | E];
    [discriminate |].
  intros H. inversion H; subst. split; [discriminate |].
  destruct (findIndex_some p _ E) as [l1 [m [l2 [E1 [Pm [Hl F]]]]]].
  exists l1, m, l2. rewrite F, Nat2Z.id, E1, update_at_length.
  repeat split; [now apply str_eqb_eq |].
  intros x Hx. now apply str_eqb_neq, Hl.
Qed.

Lemma addMessage_shape (fuel : nat) (random : nat -> Q)
    (dateNow isoNow : jsstring) (w w' : World) (d : MessageData)
    (m : Message) :
  addMessage fuel random dateNow isoNow w d = Some (m, w') ->
  w' = saveMessages (m :: getMessages w) w /\
  generateTrackingCode fuel random 0 w = Some (msg_trackingCode m) /\
  msg_id m = dateNow /\ msg_timestamp m = isoNow /\
  msg_category m = data_category d /\
  msg_message m = data_message d /\
  msg_mood m = data_mood d /\
  msg_status m = new /\ msg_replies m = [] /\ msg_counselorNotes m = [] /\
  msg_urgency m = adjustUrgency (data_urgency d) (analyze (data_message d)) /\
  msg_crisisDetected m = isCrisis (analyze (data_message d)) /\
  msg_crisisLevel m = crisisLevel (analyze (data_message d)) /\
  msg_crisisKeywords m = detectedKeywords (analyze (data_message d)).
Proof.
  unfold addMessage.
  destruct (generateTrackingCode fuel random 0 w) as [code|];
    [| discriminate].
  intros H. inversion H; subst. simpl. repeat split.
Qed.

(* ================================================================== *)
(** ** Submitting and tracking *)
(* ================================================================== *)

Lemma getMessages_saveMessages (messages : list Message) (w : World) :
  getMessages (saveMessages messages w) = messages.
Proof. reflexivity. Qed.

Lemma generated_code_shape (fuel : nat) (random : nat -> Q) (n : nat)
    (w : World) (code : jsstring) :
  (forall i, (0 <= random i < 1)%Q) ->
  generateTrackingCode fuel random n w = Some code ->
  List.length code = 8%nat /\ Forall (fun c => In c chars) code /\
  ~ In code (map msg_trackingCode (getMessages w)).
Proof.
  intros Hr H. apply generateTrackingCode_sound in H.
  destruct H as [k [-> T]].
  destruct (draw_code_shape random Hr (n + 8 * k)) as [L F].
  repeat split; [exact L | exact F |].
  intros Hin. apply in_map_iff in Hin. destruct Hin as [m [E Hm]].
  rewrite code_taken_false in T. exact (T m Hm E).
Qed.

(** X9. The record [addMessage] returns is the one [getMessageByCode]
    finds afterwards under the code it was given, whatever the
    collection held before and whatever the builtin does elsewhere;
    with [Math.random()] in [0, 1) and a builtin that raises Basic
    Latin, the code typed in lower case, with blanks around it, makes
    [handleTrackMessage] show that record too, without a reply form,
    the record being new and without replies. *)
Theorem addMessage_then_lookup :
  forall (toUpperCase : jsstring -> jsstring)
         (fuel : nat) (random : nat -> Q) (dateNow isoNow : jsstring)
         (w w' : World) (d : MessageData) (m : Message),
    addMessage fuel random dateNow isoNow w d = Some (m, w') ->
    getMessageByCode toUpperCase w' (msg_trackingCode m) = Some m /\
    ((forall i, (0 <= random i < 1)%Q) ->
     upper_on_ascii toUpperCase ->
     forall a b,
       Forall (fun c => is_space c = true) a ->
       Forall (fun c => is_space c = true) b ->
       getMessageByCode toUpperCase w' (toLowerCase (msg_trackingCode m))
       = Some m /\
       handleTrackMessage toUpperCase
         (a ++ toLowerCase (msg_trackingCode m) ++ b) w'
       = TrackingShown m false).
Proof.
  intros toUpperCase fuel random dateNow isoNow w w' d m H.
  apply addMessage_shape in H.
  destruct H as [-> [G [_ [_ [_ [_ [_ [St [Re _]]]]]]]]].
  unfold getMessageByCode. rewrite getMessages_saveMessages.
  cbn [find].
  split; [now rewrite str_eqb_refl |].
  intros Hr Hu a b Ha Hb.
  destruct (generated_code_shape _ _ _ _ _ Hr G) as [L [F _]].
  destruct (code_case toUpperCase _ Hu F) as [U [UL [_ SL]]].
  assert (E : find
                (fun m0 => str_eqb (toUpperCase (msg_trackingCode m0))
                   (toUpperCase (toLowerCase (msg_trackingCode m))))
                (m :: getMessages w) = Some m).
  { cbn [find]. rewrite UL, U. now rewrite str_eqb_refl. }
  split; [exact E |].
  unfold handleTrackMessage. rewrite trim_padded by assumption.
  destruct (toLowerCase (msg_trackingCode m)) as [|c t] eqn:T.
  - destruct (msg_trackingCode m); discriminate.
  - unfold getMessageByCode. rewrite getMessages_saveMessages, E.
    unfold reply_form_rendered. rewrite St, Re. reflexivity.
Qed.

Lemma addMessage_then_lookup_witness :
  exists m w',
    addMessage 2 sample_random (lit "1765237305000")
      (lit "2025-12-08T23:41:45.000Z") sample_world
      (critical_submission baja) = Some (m, w') /\
    msg_trackingCode m = lit "BBBBBBBB" /\
    getMessageByCode toUpperCase_ascii w' (lit "BBBBBBBB") = Some m /\
    handleTrackMessage toUpperCase_ascii (lit "  bbbbbbbb ") w'
    = TrackingShown m false.
Proof.
  destruct (addMessage 2 sample_random (lit "1765237305000")
              (lit "2025-12-08T23:41:45.000Z") sample_world
              (critical_submission baja)) as [[m w']|] eqn:E;
    [| vm_compute in E; discriminate].
  exists m, w'. split; [reflexivity |].
  assert (C : msg_trackingCode m = lit "BBBBBBBB").
  { vm_compute in E. inversion E. reflexivity. }
  destruct (addMessage_then_lookup toUpperCase_ascii _ _ _ _ _ _ _ _ E)
    as [H1 H2].
  destruct (H2 sample_random_range toUpperCase_ascii_upper
              (lit "  ") (lit " ")
              ltac:(repeat constructor) ltac:(repeat constructor))
    as [_ H3].
  rewrite C in H1, H3. repeat split; [exact C | exact H1 | exact H3].
Defined.

(** X10. [handleTrackMessage] gives the alert for an empty code exactly
    when the input has nothing but white space, and the not-found
    notice exactly when the trimmed input is not empty and matches no
    stored code after upper-casing both; nothing is thrown for a code
    that is not there.  A record it shows is in the collection and
    matches, and the reply form is rendered with it exactly when its
    status is responded or it has a reply. *)
Theorem handleTrackMessage_outcomes :
  forall (toUpperCase : jsstring -> jsstring) (inputValue : jsstring)
         (w : World),
    (handleTrackMessage toUpperCase inputValue w = EmptyCodeAlert <->
     Forall (fun c => is_space c = true) inputValue) /\
    (handleTrackMessage toUpperCase inputValue w = CodeNotFound <->
     trim inputValue <> [] /\
     forall m, In m (getMessages w) ->
       toUpperCase (msg_trackingCode m) <> toUpperCase (trim inputValue)) /\
    (forall m form,
       handleTrackMessage toUpperCase inputValue w = TrackingShown m form ->
       In m (getMessages w) /\
       toUpperCase (msg_trackingCode m) = toUpperCase (trim inputValue) /\
       (form = true <->
        msg_status m = responded \/ msg_replies m <> [])).
Proof.
  intros toUpperCase inputValue w. rewrite <- trim_nil.
  unfold handleTrackMessage.
  destruct (trim inputValue) as [|c t] eqn:T.
  - repeat split; try discriminate; try congruence. tauto.
  - unfold getMessageByCode.
    destruct (find _ (getMessages w)) as [m|] eqn:E.
    + apply find_some in E. destruct E as [Hin P]. apply str_eqb_eq in P.
      split; [split; discriminate |].
      split.
      * split; [discriminate |]. intros [_ H]. exfalso. exact (H m Hin P).
      * intros m0 form H. inversion H; subst.
        split; [exact Hin |]. split; [exact P |].
        unfold reply_form_rendered.
        destruct (msg_status m0), (msg_replies m0); simpl; split;
          try reflexivity; try discriminate;
          try (intros _; left; reflexivity);
          try (intros _; right; discriminate);
          intros [? | ?]; congruence.
    + split; [split; discriminate |].
      split; [| intros m form H; discriminate].
      split; [| reflexivity]. intros _. split; [discriminate |].
      intros m Hm. apply str_eqb_neq.
      exact (find_none _ _ E m Hm).
Qed.

(* ================================================================== *)
(** ** Histories: what every reachable collection satisfies *)
(* ================================================================== *)

Lemma crisis_of_score_agree (s : Z) :
  snd (crisis_of_score s) = true <-> fst (crisis_of_score s) <> none.
Proof.
  unfold crisis_of_score.
  destruct (10 <=? s); [simpl; split; congruence |].
  destruct (7 <=? s); [simpl; split; congruence |].
  destruct (5 <=? s); simpl; split; congruence.
Qed.

(** The record [addMessage] builds has crisis fields that agree. *)
Lemma addMessage_crisis_fields (fuel : nat) (random : nat -> Q)
    (dateNow isoNow : jsstring) (w w' : World) (d : MessageData)
    (m : Message) :
  addMessage fuel random dateNow isoNow w d = Some (m, w') ->
  crisis_fields_agree m.
Proof.
  intros H. apply addMessage_shape in H.
  destruct H as [_ [_ [_ [_ [_ [_ [_ [_ [_ [_ [U [D [L _]]]]]]]]]]]]].
  destruct (analyze_fields (data_message d)) as [_ [L' [I' _]]].
  unfold crisis_fields_agree. rewrite U, D, L.
  split; [rewrite I', L'; apply crisis_of_score_agree |].
  unfold adjustUrgency.
  destruct (crisisLevel (analyze (data_message d))), (data_urgency d);
    simpl; repeat split; congruence.
Qed.

(** One call either leaves the collection as it is, or puts one new
    record in front, or replaces one record by a later version. *)
Lemma step_cases (w w' : World) :
  step w w' ->
  getMessages w' = getMessages w \/
  (exists m,
     getMessages w' = m :: getMessages w /\
     ~ In (msg_trackingCode m) (map msg_trackingCode (getMessages w)) /\
     In (msg_trackingCode m) (code_space 8) /\
     crisis_fields_agree m /\ msg_status m = new /\ msg_replies m = []) \/
  (exists l1 m m' l2,
     getMessages w = l1 ++ m :: l2 /\
     getMessages w' = l1 ++ m' :: l2 /\
     later_version m m').
Proof.
  intros [w0 | fuel random dateNow isoNow d m w0 w0' Hr H
          | messageId replyText notes isoNow w0 w0' H
          | trackingCode inputValue isoNow w0 w0' H
          | messageId newStatus w0 w0' H].
  - left. unfold initApp, getMessages. reflexivity.
  - right. left. exists m.
    pose proof (addMessage_crisis_fields _ _ _ _ _ _ _ _ H) as C.
    apply addMessage_shape in H.
    destruct H as [-> [G [_ [_ [_ [_ [_ [S [R _]]]]]]]]].
    destruct (generated_code_shape _ _ _ _ _ Hr G) as [L [F N]].
    split; [reflexivity |]. split; [exact N |].
    split; [apply code_space_In; split; assumption |].
    split; [exact C |]. split; assumption.
  - right. right. apply handleReplySubmit_shape in H.
    destruct H as [l1 [m [l2 [E [-> _]]]]].
    exists l1, m, (counselor_reply replyText notes isoNow m), l2.
    repeat split; [exact E | apply counselor_reply_later ..].
  - right. right. apply handleStudentReply_shape in H.
    destruct H as [_ [l1 [m [l2 [E [-> _]]]]]].
    exists l1, m, (student_reply (trim inputValue) isoNow m), l2.
    repeat split; [exact E | apply student_reply_later ..].
  - right. right. apply updateMessageStatus_shape in H.
    destruct H as [l1 [m [l2 [E [-> _]]]]].
    exists l1, m, (set_status newStatus m), l2.
    repeat split; [exact E | apply set_status_later ..].
Qed.

Lemma Forall2_later_refl (l : list Message) : Forall2 later_version l l.
Proof. induction l; constructor; [apply later_version_refl | assumption]. Qed.

Lemma Forall2_later_trans (a b c : list Message) :
  Forall2 later_version a b -> Forall2 later_version b c ->
  Forall2 later_version a c.
Proof.
  intros H; revert c; induction H as [|x y a b Hxy Hab IH]; intros c Hc;
    inversion Hc; subst; constructor.
  - eapply later_version_trans; eassumption.
  - now apply IH.
Qed.

(** X11. Across any number of calls of the handlers nothing is removed
    from the collection and nothing is reordered: it is some newer
    records followed by the records it had, each with the fields of its
    submission (id, tracking code, category, urgency, body, mood, time,
    crisis fields) as they were and with its earlier replies, in order,
    at the start of its replies. *)
Theorem steps_history :
  forall w w' : World,
    steps w w' ->
    exists newer rest,
      getMessages w' = newer ++ rest /\
      Forall2 later_version (getMessages w) rest.
Proof.
  intros w w' H. induction H as [w | w w' w'' H IH S].
  - exists [], (getMessages w). split; [reflexivity |].
    apply Forall2_later_refl.
  - destruct IH as [newer [rest [E F]]].
    destruct (step_cases _ _ S) as [Same | [[m [Em _]] | Upd]].
    + exists newer, rest. split; [congruence | exact F].
    + exists (m :: newer), rest. split; [| exact F].
      rewrite Em, E. reflexivity.
    + destruct Upd as [l1 [m [m' [l2 [E1 [E2 Lv]]]]]].
      assert (P : Forall2 later_version (getMessages w') (getMessages w'')).
      { rewrite E1, E2. apply Forall2_app; [apply Forall2_later_refl |].
        constructor; [exact Lv | apply Forall2_later_refl]. }
      rewrite E in P. apply Forall2_app_inv_l in P.
      destruct P as [newer' [rest' [_ [Fr ->]]]].
      exists newer', rest'. split; [reflexivity |].
      eapply Forall2_later_trans; eassumption.
Qed.

Lemma NoDup_map_replace (l1 l2 : list Message) (m m' : Message) :
  msg_trackingCode m = msg_trackingCode m' ->
  map msg_trackingCode (l1 ++ m' :: l2) = map msg_trackingCode (l1 ++ m :: l2).
Proof. intros E. rewrite !map_app. simpl. now rewrite E. Qed.

(** The invariant of the tracking codes along a history. *)
Lemma codes_invariant (w : World) :
  reachable w ->
  NoDup (map msg_trackingCode (getMessages w)) /\
  Forall (fun m => In (msg_trackingCode m) (code_space 8)) (getMessages w).
Proof.
  intros H. unfold reachable in H.
  remember emptyWorld as w0 eqn:E0.
  induction H as [w | w w' w'' H IH S].
  - subst. change (getMessages emptyWorld) with (@nil Message).
    split; constructor.
  - destruct (IH E0) as [N F].
    destruct (step_cases _ _ S) as [Same | [[m [Em [Fresh [C _]]]] | Upd]].
    + rewrite Same. split; assumption.
    + rewrite Em. cbn [map]. split; constructor; assumption.
    + destruct Upd as [l1 [m [m' [l2 [E1 [E2 [[_ [T _]] _]]]]]]].
      rewrite E2, (NoDup_map_replace l1 l2 m m' T), <- E1.
      split; [exact N |].
      rewrite E1 in F. apply Forall_app in F. destruct F as [F1 F2].
      inversion F2; subst.
      apply Forall_app. split; [exact F1 |].
      constructor; [now rewrite <- T | assumption].
Qed.

(** X12. In every collection the handlers can build from the empty
    store, with [Math.random()] in [0, 1), the tracking codes are
    pairwise distinct and each is one of the codes of the code space
    (8 characters of the alphabet). *)
Theorem reachable_codes_unique :
  forall w : World,
    reachable w ->
    NoDup (map msg_trackingCode (getMessages w)) /\
    Forall (fun m => In (msg_trackingCode m) (code_space 8)) (getMessages w).
Proof. exact codes_invariant. Qed.

(** The invariant of the crisis fields along a history. *)
Lemma crisis_fields_invariant (w : World) :
  reachable w ->
  Forall (fun m =>
            crisis_fields_agree m /\
            (msg_crisisDetected m = true -> msg_urgency m <> baja))
         (getMessages w).
Proof.
  assert (A : forall m, crisis_fields_agree m ->
              msg_crisisDetected m = true -> msg_urgency m <> baja).
  { intros m [D [C [Hh M]]] Hd. apply D in Hd.
    destruct (msg_crisisLevel m) eqn:L; try congruence.
    - rewrite C; [discriminate | reflexivity].
    - rewrite Hh; [discriminate | reflexivity].
    - now apply M. }
  assert (K : forall m m', later_version m m' ->
              crisis_fields_agree m -> crisis_fields_agree m').
  { intros m m' [S _] G. unfold same_submission in S.
    unfold crisis_fields_agree in *.
    destruct S as [_ [_ [_ [U [_ [_ [_ [D [L _]]]]]]]]].
    now rewrite <- U, <- D, <- L. }
  intros H. unfold reachable in H.
  remember emptyWorld as w0 eqn:E0.
  induction H as [w | w w' w'' H IH S].
  - subst. constructor.
  - specialize (IH E0).
    destruct (step_cases _ _ S) as [Same | [[m [Em [_ [_ [C _]]]]] | Upd]].
    + now rewrite Same.
    + rewrite Em. constructor; [split; [exact C | now apply A] | exact IH].
    + destruct Upd as [l1 [m [m' [l2 [E1 [E2 Lv]]]]]].
      rewrite E1 in IH. apply Forall_app in IH. destruct IH as [F1 F2].
      inversion F2 as [|? ? [Cm _] F3]; subst.
      rewrite E2. apply Forall_app. split; [exact F1 |].
      constructor; [| exact F3].
      pose proof (K _ _ Lv Cm) as Cm'. split; [exact Cm' | now apply A].
Qed.

(** X13. In every reachable collection each record has crisis fields
    that agree with its urgency: [crisisDetected] holds exactly when
    the level is not none, a critical record is urgente, a high record
    is alta, and a moderate record is not baja; so no record with a
    detected crisis has the urgency baja. *)
Theorem reachable_crisis_fields :
  forall w : World,
    reachable w ->
    Forall (fun m =>
              crisis_fields_agree m /\
              (msg_crisisDetected m = true -> msg_urgency m <> baja))
           (getMessages w).
Proof. exact crisis_fields_invariant. Qed.

Lemma zero_random_range : forall i : nat, (0 <= (fun _ : nat => 0%Q) i < 1)%Q.
Proof. intros i. split; [discriminate | reflexivity]. Qed.

Lemma world_after_submission_step : step emptyWorld world_after_submission.
Proof.
  eapply step_addMessage with (fuel := 1%nat) (random := fun _ => 0%Q)
    (dateNow := lit "1765237304000")
    (isoNow := lit "2025-12-08T23:41:44.000Z")
    (d := critical_submission baja).
  - exact zero_random_range.
  - vm_compute. reflexivity.
Qed.

Lemma world_after_reply_step : step world_after_submission world_after_reply.
Proof.
  eapply step_handleReplySubmit with (messageId := lit "1765237304000")
    (replyText := lit "estamos contigo") (notes := lit "llamar hoy")
    (isoNow := lit "2025-12-09T08:00:00.000Z").
  vm_compute. reflexivity.
Qed.

Lemma world_after_resolution_step :
  step world_after_reply world_after_resolution.
Proof.
  eapply step_updateMessageStatus with (messageId := lit "1765237304000")
    (newStatus := resolved).
  vm_compute. reflexivity.
Qed.

Lemma world_after_resolution_reachable : reachable world_after_resolution.
Proof.
  unfold reachable.
  eapply steps_next; [| exact world_after_resolution_step].
  eapply steps_next; [| exact world_after_reply_step].
  eapply steps_next; [apply steps_refl | exact world_after_submission_step].
Qed.

Lemma world_two_records_reachable : reachable world_two_records.
Proof.
  unfold reachable.
  eapply steps_next; [exact world_after_resolution_reachable |].
  eapply step_addMessage with (fuel := 2%nat) (random := sample_random)
    (dateNow := lit "1765300000000")
    (isoNow := lit "2025-12-09T17:06:40.000Z") (d := plain_submission).
  - exact sample_random_range.
  - vm_compute. reflexivity.
Qed.

Lemma steps_history_witness :
  steps world_after_submission world_after_resolution /\
  exists newer rest,
    getMessages world_after_resolution = newer ++ rest /\
    Forall2 later_version (getMessages world_after_submission) rest.
Proof.
  assert (S : steps world_after_submission world_after_resolution).
  { eapply steps_next; [| exact world_after_resolution_step].
    eapply steps_next; [apply steps_refl | exact world_after_reply_step]. }
  split; [exact S | exact (steps_history _ _ S)].
Defined.

Lemma reachable_codes_unique_witness :
  reachable world_two_records /\
  map msg_trackingCode (getMessages world_two_records)
    = [lit "BBBBBBBB"; lit "AAAAAAAA"] /\
  NoDup (map msg_trackingCode (getMessages world_two_records)) /\
  Forall (fun m => In (msg_trackingCode m) (code_space 8))
         (getMessages world_two_records).
Proof.
  split; [exact world_two_records_reachable |].
  split; [vm_compute; reflexivity |].
  exact (reachable_codes_unique _ world_two_records_reachable).
Defined.

Lemma reachable_crisis_fields_witness :
  reachable world_after_resolution /\
  Forall (fun m =>
            crisis_fields_agree m /\
            (msg_crisisDetected m = true -> msg_urgency m <> baja))
         (getMessages world_after_resolution).
Proof.
  split; [exact world_after_resolution_reachable |].
  exact (reachable_crisis_fields _ world_after_resolution_reachable).
Defined.

Lemma NoDup_map_inj (l : list Message) (a b : Message) :
  NoDup (map msg_trackingCode l) -> In a l -> In b l ->
  msg_trackingCode a = msg_trackingCode b -> a = b.
Proof.
  induction l as [|x l IH]; simpl; [tauto |].
  intros N Ha Hb E. apply NoDup_cons_iff in N. destruct N as [Nx Nl].
  destruct Ha as [<- | Ha], Hb as [<- | Hb]; auto.
  - exfalso. apply Nx. rewrite E. now apply in_map.
  - exfalso. apply Nx. rewrite <- E. now apply in_map.
Qed.

(** X14. In a reachable collection, and with a builtin that raises
    Basic Latin, [getMessageByCode] returns a record exactly when that
    record is in the collection and its code is the upper-cased query;
    so each code leads to one record only, and a query in lower or
    mixed case leads to the same record. *)
Theorem reachable_lookup :
  forall (toUpperCase : jsstring -> jsstring) (w : World),
    upper_on_ascii toUpperCase ->
    reachable w ->
    forall (query : jsstring) (m : Message),
      getMessageByCode toUpperCase w query = Some m <->
      In m (getMessages w) /\ msg_trackingCode m = toUpperCase query.
Proof.
  intros toUpperCase w Hu H query m.
  destruct (codes_invariant w H) as [N F].
  rewrite Forall_forall in F.
  assert (U : forall x, In x (getMessages w) ->
              toUpperCase (msg_trackingCode x) = msg_trackingCode x).
  { intros x Hx. apply F, code_space_In in Hx. destruct Hx as [_ Hx].
    now apply (code_case toUpperCase _ Hu) in Hx. }
  unfold getMessageByCode. split.
  - intros E. apply find_some in E. destruct E as [Hin P].
    apply str_eqb_eq in P. rewrite (U m Hin) in P. tauto.
  - intros [Hin E].
    destruct (find _ (getMessages w)) as [m'|] eqn:Fd.
    + apply find_some in Fd. destruct Fd as [Hin' P].
      apply str_eqb_eq in P. rewrite (U m' Hin') in P.
      f_equal. apply (NoDup_map_inj (getMessages w)); try assumption.
      congruence.
    + exfalso. pose proof (find_none _ _ Fd m Hin) as P. simpl in P.
      apply str_eqb_neq in P. apply P. rewrite (U m Hin). exact E.
Qed.

Lemma reachable_lookup_witness :
  reachable world_two_records /\
  List.length (getMessages world_two_records) = 2%nat /\
  exists ma mb,
    getMessageByCode toUpperCase_ascii world_two_records (lit "aaaaAAAA")
    = Some ma /\
    msg_trackingCode ma = lit "AAAAAAAA" /\
    getMessageByCode toUpperCase_ascii world_two_records (lit "bbbbbbbb")
    = Some mb /\
    msg_trackingCode mb = lit "BBBBBBBB" /\
    ma <> mb.
Proof.
  split; [exact world_two_records_reachable |].
  split; [vm_compute; reflexivity |].
  destruct (getMessageByCode toUpperCase_ascii world_two_records
              (lit "aaaaAAAA")) as [ma|] eqn:Ea;
    [| vm_compute in Ea; discriminate].
  destruct (getMessageByCode toUpperCase_ascii world_two_records
              (lit "bbbbbbbb")) as [mb|] eqn:Eb;
    [| vm_compute in Eb; discriminate].
  exists ma, mb.
  apply (reachable_lookup toUpperCase_ascii _ toUpperCase_ascii_upper
           world_two_records_reachable) in Ea, Eb.
  destruct Ea as [_ Ea], Eb as [_ Eb].
  assert (Ca : msg_trackingCode ma = lit "AAAAAAAA")
    by (rewrite Ea; reflexivity).
  assert (Cb : msg_trackingCode mb = lit "BBBBBBBB")
    by (rewrite Eb; reflexivity).
  repeat split; try assumption.
  intros E. rewrite E, Cb in Ca. discriminate.
Defined.

(* ================================================================== *)
(** ** Replies and status changes: edges and composition *)
(* ================================================================== *)

(** X15. [handleStudentReply] ends with the empty-reply alert exactly
    when the input has nothing but white space, and with the not-found
    alert exactly when the input has more than that and no stored code
    is the given code letter for letter (here the comparison is exact,
    not up to case); in both cases nothing is saved.  When it saves,
    the collection keeps its length and its tracking codes. *)
Theorem handleStudentReply_outcomes :
  forall (trackingCode inputValue isoNow : jsstring) (w : World),
    (handleStudentReply trackingCode inputValue isoNow w = EmptyReplyAlert
     <-> Forall (fun c => is_space c = true) inputValue) /\
    (handleStudentReply trackingCode inputValue isoNow w = NotFoundAlert
     <-> trim inputValue <> [] /\
         forall m, In m (getMessages w) ->
           msg_trackingCode m <> trackingCode) /\
    (forall w',
       handleStudentReply trackingCode inputValue isoNow w = ReplySaved w' ->
       List.length (getMessages w') = List.length (getMessages w) /\
       map msg_trackingCode (getMessages w')
         = map msg_trackingCode (getMessages w)).
Proof.
  intros trackingCode inputValue isoNow w. split; [| split].
  - rewrite <- trim_nil. unfold handleStudentReply.
    destruct (trim inputValue) as [|c t]; [tauto |].
    destruct (findIndex _ (getMessages w) =? -1);
      split; discriminate.
  - unfold handleStudentReply.
    destruct (trim inputValue) as [|c t].
    + split; [discriminate | intros [N _]; congruence].
    + set (p := fun m => str_eqb (msg_trackingCode m) trackingCode).
      destruct (Z.eqb_spec (findIndex p (getMessages w)) (-1)) as [E | E].
      * split; [| reflexivity]. intros _. split; [discriminate |].
        intros m Hm. apply str_eqb_neq.
        exact (proj1 (findIndex_none p _) E m Hm).
      * split; [discriminate |]. intros [_ H]. exfalso. apply E.
        apply findIndex_none. intros m Hm. apply str_eqb_neq, H, Hm.
  - intros w' H. apply handleStudentReply_shape in H.
    destruct H as [_ [l1 [m [l2 [E [-> _]]]]]].
    rewrite getMessages_saveMessages, E, !length_app, !map_app.
    split; reflexivity.
Qed.

(** X16. The two counselor handlers that look a record up by id save
    nothing exactly when no record has the id. *)
Theorem counselor_handlers_missing_id :
  forall (messageId replyText notes isoNow : jsstring) (newStatus : Status)
         (w : World),
    (handleReplySubmit messageId replyText notes isoNow w = None <->
     forall m, In m (getMessages w) -> msg_id m <> messageId) /\
    (updateMessageStatus messageId newStatus w = None <->
     forall m, In m (getMessages w) -> msg_id m <> messageId).
Proof.
  intros messageId replyText notes isoNow newStatus w.
  unfold handleReplySubmit, updateMessageStatus.
  split.
  - destruct (update_found _ (counselor_reply replyText notes isoNow)
                (getMessages w)) as [ms|] eqn:E.
    + split; [discriminate |]. intros H. exfalso.
      assert (N : update_found (fun m => str_eqb (msg_id m) messageId)
                    (counselor_reply replyText notes isoNow)
                    (getMessages w) = None).
      { apply update_found_none. intros m Hm. apply str_eqb_neq, H, Hm. }
      congruence.
    + split; [| reflexivity]. intros _ m Hm. apply str_eqb_neq.
      exact (proj1 (update_found_none _ _ _) E m Hm).
  - destruct (update_found _ (set_status newStatus) (getMessages w))
      as [ms|] eqn:E.
    + split; [discriminate |]. intros H. exfalso.
      assert (N : update_found (fun m => str_eqb (msg_id m) messageId)
                    (set_status newStatus) (getMessages w) = None).
      { apply update_found_none. intros m Hm. apply str_eqb_neq, H, Hm. }
      congruence.
    + split; [| reflexivity]. intros _ m Hm. apply str_eqb_neq.
      exact (proj1 (update_found_none _ _ _) E m Hm).
Qed.

(** X17. [updateMessageStatus] checks no transition: the first record
    with the id gets the new status whatever status it had, its replies,
    its notes and the fields of its submission stay, and so do the other
    records; of two updates in a row the second decides. *)
Theorem updateMessageStatus_sets :
  forall (w : World) (l1 l2 : list Message) (m : Message)
         (messageId : jsstring) (s1 s2 : Status),
    getMessages w = l1 ++ m :: l2 ->
    msg_id m = messageId ->
    (forall x, In x l1 -> msg_id x <> messageId) ->
    exists m1 m2 w1,
      updateMessageStatus messageId s1 w
        = Some (saveMessages (l1 ++ m1 :: l2) w) /\
      msg_status m1 = s1 /\ msg_replies m1 = msg_replies m /\
      msg_counselorNotes m1 = msg_counselorNotes m /\
      same_submission m m1 /\
      updateMessageStatus messageId s1 w = Some w1 /\
      updateMessageStatus messageId s2 w1
        = Some (saveMessages (l1 ++ m2 :: l2) w1) /\
      updateMessageStatus messageId s2 w
        = Some (saveMessages (l1 ++ m2 :: l2) w) /\
      msg_status m2 = s2.
Proof.
  intros w l1 l2 m messageId s1 s2 E Hm Hl.
  assert (P1 : forall x, In x l1 -> str_eqb (msg_id x) messageId = false)
    by (intros x Hx; now apply str_eqb_neq, Hl).
  assert (Pm : str_eqb (msg_id m) messageId = true) by now apply str_eqb_eq.
  exists (set_status s1 m), (set_status s2 m),
         (saveMessages (l1 ++ set_status s1 m :: l2) w).
  unfold updateMessageStatus.
  rewrite getMessages_saveMessages, E.
  rewrite !update_found_first by assumption.
  repeat split.
Qed.

Lemma updateMessageStatus_sets_witness :
  getMessages resolved_world = [] ++ resolved_message :: [] /\
  exists m1 w1,
    updateMessageStatus (lit "1765237304000") new resolved_world = Some w1 /\
    getMessages w1 = [] ++ m1 :: [] /\
    msg_status m1 = new.
Proof.
  split; [reflexivity |].
  destruct (updateMessageStatus_sets resolved_world [] [] resolved_message
              (lit "1765237304000") new in_review eq_refl eq_refl
              ltac:(intros x Hx; destruct Hx))
    as [m1 [m2 [w1 [E1 [S1 _]]]]].
  exists m1, (saveMessages ([] ++ m1 :: []) resolved_world).
  split; [exact E1 |]. split; [reflexivity | exact S1].
Defined.

(** X18. A counselor reply followed by a submitter reply to the same
    record leaves its earlier replies in place, followed by the
    counselor reply and then the submitter reply; the status is
    responded and the notes are those of the counselor. *)
Theorem replies_in_order :
  forall (w : World) (l1 l2 : list Message) (m : Message)
         (replyText notes inputValue iso1 iso2 : jsstring),
    getMessages w = l1 ++ m :: l2 ->
    (forall x, In x l1 -> msg_id x <> msg_id m) ->
    (forall x, In x l1 -> msg_trackingCode x <> msg_trackingCode m) ->
    trim inputValue <> [] ->
    exists w1 w2 m2,
      handleReplySubmit (msg_id m) replyText notes iso1 w = Some w1 /\
      handleStudentReply (msg_trackingCode m) inputValue iso2 w1
        = ReplySaved w2 /\
      getMessages w2 = l1 ++ m2 :: l2 /\
      msg_replies m2 =
        msg_replies m ++
        [ {| reply_from := counselor; reply_message := replyText;
             reply_timestamp := iso1 |};
          {| reply_from := student; reply_message := trim inputValue;
             reply_timestamp := iso2 |} ] /\
      msg_status m2 = responded /\
      msg_counselorNotes m2 = notes.
Proof.
  intros w l1 l2 m replyText notes inputValue iso1 iso2 E Hid Hcode Ht.
  set (m1 := counselor_reply replyText notes iso1 m).
  exists (saveMessages (l1 ++ m1 :: l2) w),
         (saveMessages (l1 ++ student_reply (trim inputValue) iso2 m1 :: l2)
            (saveMessages (l1 ++ m1 :: l2) w)),
         (student_reply (trim inputValue) iso2 m1).
  assert (T1 : msg_trackingCode m1 = msg_trackingCode m).
  { unfold m1, counselor_reply. simpl.
    destruct (Status_eqb (msg_status m) new
              || Status_eqb (msg_status m) in_review); reflexivity. }
  split; [| split; [| split; [reflexivity |]]].
  - unfold handleReplySubmit. rewrite E, update_found_first;
      [reflexivity | | apply str_eqb_refl].
    intros x Hx. now apply str_eqb_neq, Hid.
  - unfold handleStudentReply.
    destruct (trim inputValue) as [|c t] eqn:T; [congruence |].
    rewrite getMessages_saveMessages, findIndex_first.
    + destruct (Z.eqb_spec (Z.of_nat (List.length l1)) (-1)); [lia |].
      now rewrite Nat2Z.id, update_at_length.
    + intros x Hx. now apply str_eqb_neq, Hcode.
    + rewrite T1. apply str_eqb_refl.
  - unfold m1, counselor_reply. simpl.
    destruct (Status_eqb (msg_status m) new
              || Status_eqb (msg_status m) in_review); simpl;
      rewrite <- app_assoc; repeat split.
Qed.

Lemma replies_in_order_witness :
  getMessages resolved_world = [] ++ resolved_message :: [] /\
  trim (lit " gracias ") <> [] /\
  exists w1 w2 m2,
    handleReplySubmit (msg_id resolved_message) (lit "hola") (lit "nota")
      (lit "2025-12-09T10:00:00.000Z") resolved_world = Some w1 /\
    handleStudentReply (msg_trackingCode resolved_message) (lit " gracias ")
      (lit "2025-12-09T11:00:00.000Z") w1 = ReplySaved w2 /\
    getMessages w2 = [] ++ m2 :: [] /\
    List.length (msg_replies m2) = 2%nat /\
    msg_status m2 = responded.
Proof.
  split; [reflexivity |]. split; [vm_compute; discriminate |].
  destruct (replies_in_order resolved_world [] [] resolved_message
              (lit "hola") (lit "nota") (lit " gracias ")
              (lit "2025-12-09T10:00:00.000Z") (lit "2025-12-09T11:00:00.000Z")
              eq_refl ltac:(intros x Hx; destruct Hx)
              ltac:(intros x Hx; destruct Hx)
              ltac:(vm_compute; discriminate))
    as [w1 [w2 [m2 [H1 [H2 [H3 [H4 [H5 _]]]]]]]].
  exists w1, w2, m2. repeat split; try assumption.
  rewrite H4. reflexivity.
Defined.

(* ================================================================== *)
(** ** The dashboard numbers *)
(* ================================================================== *)

Lemma filter_length_bound {A : Type} (p : A -> bool) (l : list A) :
  (List.length (filter p l) <= List.length l)%nat.
Proof.
  induction l as [|x l IH]; simpl; [lia |].
  destruct (p x); simpl; lia.
Qed.

Lemma filter_length_disjoint {A : Type} (p q : A -> bool) (l : list A) :
  (forall x, p x = true -> q x = false) ->
  (List.length (filter p l) + List.length (filter q l)
   <= List.length l)%nat.
Proof.
  intros D. induction l as [|x l IH]; simpl; [lia |].
  destruct (p x) eqn:Px.
  - rewrite (D x Px). simpl. lia.
  - destruct (q x); simpl; lia.
Qed.

(** X19. On every collection the dashboard numbers are consistent: the
    urgent count is at most the total, and the pending and the resolved
    counts together are at most the total, no record being counted as
    both. *)
Theorem dashboard_bounds :
  forall w : World,
    (stat_urgent (updateDashboardStats w)
     <= stat_total (updateDashboardStats w))%nat /\
    (stat_pending (updateDashboardStats w)
     + stat_resolved (updateDashboardStats w)
     <= stat_total (updateDashboardStats w))%nat /\
    stat_total (updateDashboardStats w) = List.length (getMessages w).
Proof.
  intros w. unfold updateDashboardStats. simpl.
  split; [apply filter_length_bound |]. split; [| reflexivity].
  apply filter_length_disjoint.
  intros m. destruct (msg_status m); simpl; congruence.
Qed.

(** X20. A submission adds one to the total and one to the pending
    count and leaves the resolved count; it adds one to the urgent
    count exactly when the submitter declared urgente or the body has a
    keyword of the table, and nothing otherwise.  A declared urgente
    that the escalation lowers to alta is therefore still counted as
    urgent. *)
Theorem dashboard_after_addMessage :
  forall (fuel : nat) (random : nat -> Q) (dateNow isoNow : jsstring)
         (w w' : World) (d : MessageData) (m : Message),
    addMessage fuel random dateNow isoNow w d = Some (m, w') ->
    stat_total (updateDashboardStats w')
      = S (stat_total (updateDashboardStats w)) /\
    stat_pending (updateDashboardStats w')
      = S (stat_pending (updateDashboardStats w)) /\
    stat_resolved (updateDashboardStats w')
      = stat_resolved (updateDashboardStats w) /\
    (data_urgency d = urgente \/ isCrisis (analyze (data_message d)) = true ->
     stat_urgent (updateDashboardStats w')
       = S (stat_urgent (updateDashboardStats w))) /\
    (data_urgency d <> urgente /\ isCrisis (analyze (data_message d)) = false ->
     stat_urgent (updateDashboardStats w')
       = stat_urgent (updateDashboardStats w)).
Proof.
  intros fuel random dateNow isoNow w w' d m H.
  apply addMessage_shape in H.
  destruct H as [-> [_ [_ [_ [_ [_ [_ [S [_ [_ [U [D [L _]]]]]]]]]]]]].
  unfold updateDashboardStats. rewrite getMessages_saveMessages.
  cbn [stat_total stat_pending stat_resolved stat_urgent filter List.length].
  rewrite S, U, D. cbn [Status_eqb orb List.length].
  split; [reflexivity |]. split; [reflexivity |]. split; [reflexivity |].
  destruct (analyze_fields (data_message d)) as [_ [L' [I' _]]].
  pose proof (crisis_of_score_agree (severityScore (analyze (data_message d))))
    as Ag.
  rewrite <- L', <- I' in Ag.
  unfold adjustUrgency.
  destruct (crisisLevel (analyze (data_message d))) eqn:Lv,
           (isCrisis (analyze (data_message d))) eqn:Ic,
           (data_urgency d) eqn:Du;
    cbn [CrisisLevel_eqb Urgency_eqb andb orb List.length];
    split; try reflexivity;
    try (intros [Hu | Hc]; congruence);
    try (intros [Hu Hc]; congruence);
    try (exfalso; destruct Ag as [A1 A2];
         first [ now apply A1 | assert (true = false) by
                   (symmetry; apply A2; discriminate); discriminate ]).
Qed.

Lemma dashboard_after_addMessage_witness :
  exists m w',
    addMessage 2 sample_random (lit "1765237305000")
      (lit "2025-12-08T23:41:45.000Z") sample_world
      (critical_submission baja) = Some (m, w') /\
    stat_total (updateDashboardStats w') = 2%nat /\
    stat_urgent (updateDashboardStats w') = 1%nat.
Proof.
  destruct (addMessage 2 sample_random (lit "1765237305000")
              (lit "2025-12-08T23:41:45.000Z") sample_world
              (critical_submission baja)) as [[m w']|] eqn:E;
    [| vm_compute in E; discriminate].
  exists m, w'. split; [reflexivity |].
  destruct (dashboard_after_addMessage _ _ _ _ _ _ _ _ E)
    as [T [_ [_ [Ur _]]]].
  split; [rewrite T; reflexivity |].
  rewrite Ur; [reflexivity | right; vm_compute; reflexivity].
Defined.

Lemma filter_replace_length (p : Message -> bool) (l1 l2 : list Message)
    (m m' : Message) :
  p m' = p m ->
  List.length (filter p (l1 ++ m' :: l2))
  = List.length (filter p (l1 ++ m :: l2)).
Proof.
  intros E. rewrite !filter_app, !length_app. cbn [filter].
  rewrite E. destruct (p m); reflexivity.
Qed.

(** X21. A counselor reply leaves the total, the urgent and the
    resolved count as they are; it takes one off the pending count when
    the record it answers was new or in review, and leaves the pending
    count otherwise. *)
Theorem dashboard_after_counselor_reply :
  forall (messageId replyText notes isoNow : jsstring) (w w' : World),
    handleReplySubmit messageId replyText notes isoNow w = Some w' ->
    stat_total (updateDashboardStats w')
      = stat_total (updateDashboardStats w) /\
    stat_urgent (updateDashboardStats w')
      = stat_urgent (updateDashboardStats w) /\
    stat_resolved (updateDashboardStats w')
      = stat_resolved (updateDashboardStats w) /\
    exists m,
      In m (getMessages w) /\ msg_id m = messageId /\
      (msg_status m = new \/ msg_status m = in_review ->
       S (stat_pending (updateDashboardStats w'))
         = stat_pending (updateDashboardStats w)) /\
      (msg_status m = responded \/ msg_status m = resolved ->
       stat_pending (updateDashboardStats w')
         = stat_pending (updateDashboardStats w)).
Proof.
  intros messageId replyText notes isoNow w w' H.
  apply handleReplySubmit_shape in H.
  destruct H as [l1 [m [l2 [E [-> [Hid _]]]]]].
  unfold updateDashboardStats. rewrite getMessages_saveMessages, E.
  cbn [stat_total stat_pending stat_resolved stat_urgent].
  set (m' := counselor_reply replyText notes isoNow m).
  assert (Hu : msg_urgency m' = msg_urgency m /\
               msg_crisisDetected m' = msg_crisisDetected m).
  { destruct (counselor_reply_later replyText notes isoNow m) as [Sm _].
    unfold same_submission in Sm. fold m' in Sm.
    destruct Sm as [_ [_ [_ [Uu [_ [_ [_ [Dd _]]]]]]]].
    split; congruence. }
  destruct Hu as [Hu Hd].
  assert (Hs : msg_status m' = status_after_counselor_reply (msg_status m)).
  { unfold m', counselor_reply. simpl.
    destruct (msg_status m) eqn:St; simpl; rewrite ?St; reflexivity. }
  split; [now rewrite !length_app |].
  split; [apply filter_replace_length; now rewrite Hu, Hd |].
  split; [apply filter_replace_length; rewrite Hs;
          destruct (msg_status m); reflexivity |].
  exists m. split; [apply in_elt |]. split; [exact Hid |].
  rewrite !filter_app, !length_app. cbn [filter]. rewrite Hs.
  split; intros [St | St]; rewrite St; simpl; lia.
Qed.

Lemma dashboard_after_counselor_reply_witness :
  exists w',
    handleReplySubmit (lit "1765237304000") (lit "hola") (lit "nota")
      (lit "2025-12-09T10:00:00.000Z") sample_world = Some w' /\
    stat_pending (updateDashboardStats sample_world) = 1%nat /\
    stat_total (updateDashboardStats w') = 1%nat.
Proof.
  destruct (handleReplySubmit (lit "1765237304000") (lit "hola") (lit "nota")
              (lit "2025-12-09T10:00:00.000Z") sample_world) as [w'|] eqn:E;
    [| vm_compute in E; discriminate].
  exists w'. split; [reflexivity |]. split; [reflexivity |].
  destruct (dashboard_after_counselor_reply _ _ _ _ _ _ E) as [T _].
  rewrite T. reflexivity.
Defined.

(* ================================================================== *)
(** ** The filters of the dashboard *)
(* ================================================================== *)

(** Filtering the records twice is filtering them once by both tests. *)
Lemma filter_both (messages : list Message) (first second : Message -> bool) :
  filter (fun m => first m && second m) messages
  = filter second (filter first messages).
Proof.
  induction messages as [|m rest IH]; [reflexivity |].
  cbn [filter]. destruct (first m); cbn [andb filter].
  - destruct (second m); now rewrite IH.
  - exact IH.
Qed.

Lemma includes_refl (s : jsstring) : includes s s = true.
Proof.
  apply includes_spec. exists [], []. now rewrite app_nil_r.
Qed.

(** X22. Whatever the builtin lowering does, [getFilteredMessages]
    returns, in the order of the collection, exactly the records that
    pass every filter that is set; a category selector that is missing,
    empty or [all] and an empty search box filter nothing, so that with
    nothing set the whole collection is returned; and a search for the
    tracking code of a record, typed in any letter case (the query and
    the code are lowered to the same string), returns that record. *)
Theorem getFilteredMessages_spec :
  forall (toLowerCase : jsstring -> jsstring)
         (statusFilter : option Status) (urgencyFilter : option Urgency)
         (categoryValue searchValue : option jsstring) (w : World),
    getFilteredMessages toLowerCase statusFilter urgencyFilter
      categoryValue searchValue w
      = filter (passes_filters toLowerCase statusFilter urgencyFilter
                  (or_default categoryValue (lit "all"))
                  (or_default (option_map toLowerCase searchValue) []))
               (getMessages w) /\
    getFilteredMessages toLowerCase None None None None w
      = getMessages w /\
    (toLowerCase [] = [] ->
     getFilteredMessages toLowerCase None None (Some []) (Some []) w
       = getMessages w) /\
    getFilteredMessages toLowerCase None None (Some (lit "all")) None w
      = getMessages w /\
    (forall m query,
       In m (getMessages w) ->
       toLowerCase query = toLowerCase (msg_trackingCode m) ->
       In m (getFilteredMessages toLowerCase None None None (Some query) w)).
Proof.
  intros toLowerCase statusFilter urgencyFilter categoryValue searchValue w.
  assert (G : forall sf uf cv sv,
            getFilteredMessages toLowerCase sf uf cv sv w
            = filter (passes_filters toLowerCase sf uf
                        (or_default cv (lit "all"))
                        (or_default (option_map toLowerCase sv) []))
                     (getMessages w)).
  { intros sf uf cv sv. unfold getFilteredMessages.
    set (cf := or_default cv (lit "all")).
    set (sq := or_default (option_map toLowerCase sv) []).
    set (l := getMessages w).
    assert (E1 : match sf with
                 | Some s => filter (fun m => Status_eqb (msg_status m) s) l
                 | None => l
                 end
                 = filter (fun m => match sf with
                                    | Some s => Status_eqb (msg_status m) s
                                    | None => true
                                    end) l).
    { destruct sf; [reflexivity | now rewrite filter_true]. }
    rewrite E1. clear E1.
    set (l1 := filter _ l).
    assert (E2 : match uf with
                 | Some u => filter (fun m => Urgency_eqb (msg_urgency m) u) l1
                 | None => l1
                 end
                 = filter (fun m => match uf with
                                    | Some u => Urgency_eqb (msg_urgency m) u
                                    | None => true
                                    end) l1).
    { destruct uf; [reflexivity | now rewrite filter_true]. }
    rewrite E2. clear E2. set (l2 := filter _ l1).
    assert (E3 : (if negb (str_eqb cf (lit "all"))
                  then filter (fun m => str_eqb (msg_category m) cf) l2
                  else l2)
                 = filter (fun m => str_eqb cf (lit "all")
                                    || str_eqb (msg_category m) cf) l2).
    { destruct (str_eqb cf (lit "all")); simpl;
        [now rewrite filter_true | reflexivity]. }
    rewrite E3. clear E3. set (l3 := filter _ l2).
    assert (E4 : match sq with
                 | [] => l3
                 | _ :: _ =>
                     filter
                       (fun m =>
                          includes (toLowerCase (msg_message m)) sq
                          || includes (toLowerCase (msg_trackingCode m)) sq
                          || includes (toLowerCase (msg_category m)) sq) l3
                 end
                 = filter
                     (fun m =>
                        match sq with
                        | [] => true
                        | _ :: _ =>
                            includes (toLowerCase (msg_message m)) sq
                            || includes (toLowerCase (msg_trackingCode m)) sq
                            || includes (toLowerCase (msg_category m)) sq
                        end) l3).
    { destruct sq; [now rewrite filter_true | reflexivity]. }
    rewrite E4. clear E4. unfold l3, l2, l1.
    rewrite <- !filter_both. apply filter_ext. intros m.
    unfold passes_filters. rewrite !andb_assoc. reflexivity. }
  assert (Q : forall x : jsstring, or_default (Some x) [] = x)
    by (intros [|c t]; reflexivity).
  split; [apply G |].
  split; [rewrite G; apply filter_true |].
  split.
  { intros E0. rewrite G. cbn [option_map]. rewrite E0.
    apply filter_true. }
  split; [rewrite G; apply filter_true |].
  intros m query Hm E. rewrite G. apply filter_In. split; [exact Hm |].
  cbn [option_map]. rewrite Q. unfold passes_filters.
  change (or_default None (lit "all")) with (lit "all").
  rewrite str_eqb_refl. cbn [andb orb].
  destruct (toLowerCase query) as [|c t] eqn:T; [reflexivity |].
  rewrite <- E, includes_refl, orb_true_r. reflexivity.
Qed.

Lemma getFilteredMessages_spec_witness :
  In sample_message (getMessages sample_world) /\
  toLowerCase (lit "aAaAaAaA") = toLowerCase (msg_trackingCode sample_message)
  /\
  In sample_message
     (getFilteredMessages toLowerCase None None None (Some (lit "aAaAaAaA"))
        sample_world) /\
  getFilteredMessages toLowerCase None None (Some []) (Some []) sample_world
    = getMessages sample_world.
Proof.
  split; [left; reflexivity |]. split; [reflexivity |].
  destruct (getFilteredMessages_spec toLowerCase None None None None
              sample_world) as [_ [_ [E [_ H]]]].
  split; [apply H; [left; reflexivity | reflexivity] | exact (E eq_refl)].
Defined.

(* ================================================================== *)
(** ** The submission form *)
(* ================================================================== *)

(** X23. [handleMessageSubmit] ends with the mood alert, creating
    nothing and drawing no code, exactly when no mood is selected
    ([null] or the empty string); when it creates a record, the record
    is in front of the collection, carries the selected mood, which is
    not empty, and the category and body of the form, and its urgency
    is the adjusted one. *)
Theorem handleMessageSubmit_mood :
  forall (fuel : nat) (random : nat -> Q) (dateNow isoNow : jsstring)
         (category : jsstring) (urgency : Urgency) (message : jsstring)
         (selectedMood : option jsstring) (w : World),
    (handleMessageSubmit fuel random dateNow isoNow category urgency message
       selectedMood w = Some MoodAlert
     <-> selectedMood = None \/ selectedMood = Some []) /\
    (forall m w',
       handleMessageSubmit fuel random dateNow isoNow category urgency
         message selectedMood w = Some (Submitted m w') ->
       selectedMood = Some (msg_mood m) /\ msg_mood m <> [] /\
       getMessages w' = m :: getMessages w /\
       msg_category m = category /\ msg_message m = message /\
       msg_urgency m = adjustUrgency urgency (analyze message) /\
       msg_status m = new).
Proof.
  intros fuel random dateNow isoNow category urgency message selectedMood w.
  unfold handleMessageSubmit.
  destruct selectedMood as [[|c t]|].
  - split; [split; auto | discriminate].
  - destruct (addMessage fuel random dateNow isoNow w _)
      as [[m0 w0]|] eqn:E.
    + split.
      * split; [discriminate | intros [H | H]; discriminate].
      * intros m w' H. inversion H; subst.
        apply addMessage_shape in E. simpl in E.
        destruct E as [-> [_ [_ [_ [C [B [Md [S [_ [_ [U _]]]]]]]]]]].
        rewrite Md. repeat split; try assumption. discriminate.
    + split; [| discriminate].
      split; [discriminate | intros [H | H]; discriminate].
  - split; [split; auto | discriminate].
Qed.

(* ================================================================== *)
(** ** Analytics over the collection *)
(* ================================================================== *)

(** X24. In every reachable collection the crisis statistics add up:
    the number of records with a detected crisis is the number of
    critical ones plus the high ones plus the moderate ones. *)
Theorem reachable_crisis_stats :
  forall w : World,
    reachable w ->
    crisis_total (getCrisisStats w) =
      (crisis_critical (getCrisisStats w) + crisis_high (getCrisisStats w)
       + crisis_moderate (getCrisisStats w))%nat.
Proof.
  intros w H. pose proof (crisis_fields_invariant w H) as F.
  unfold getCrisisStats.
  cbn [crisis_total crisis_critical crisis_high crisis_moderate].
  induction F as [|m l [[D _] _] F IH]; [reflexivity |].
  cbn [filter].
  destruct (msg_crisisDetected m) eqn:Dm.
  - cbn [filter List.length].
    destruct (msg_crisisLevel m) eqn:L; cbn [CrisisLevel_eqb List.length];
      try lia.
    exfalso. apply (proj1 D); reflexivity.
  - exact IH.
Qed.

Lemma reachable_crisis_stats_witness :
  reachable world_after_resolution /\
  crisis_total (getCrisisStats world_after_resolution) = 1%nat /\
  crisis_critical (getCrisisStats world_after_resolution) = 1%nat.
Proof.
  split; [exact world_after_resolution_reachable |].
  pose proof (reachable_crisis_stats _ world_after_resolution_reachable) as H.
  split; [rewrite H |]; vm_compute; reflexivity.
Defined.

Lemma count_urgency_fold (l : list Message) (D R : UrgencyDistribution) :
  R = fold_left (fun distribution m =>
                   count_urgency distribution (msg_urgency m)) l D ->
  dist_baja R = dist_baja D + count_with_urgency baja l /\
  dist_media R = dist_media D + count_with_urgency media l /\
  dist_alta R = dist_alta D + count_with_urgency alta l /\
  dist_urgente R = dist_urgente D + count_with_urgency urgente l.
Proof.
  revert D R; induction l as [|m l IH]; intros D R ->.
  - unfold count_with_urgency. simpl. repeat split; lia.
  - cbn [fold_left].
    destruct (IH (count_urgency D (msg_urgency m)) _ eq_refl)
      as [B [Me [A U]]].
    rewrite B, Me, A, U. unfold count_with_urgency. cbn [filter].
    destruct (msg_urgency m); cbn [Urgency_eqb count_urgency dist_baja
      dist_media dist_alta dist_urgente List.length];
      repeat split; lia.
Qed.

(** X25. [getUrgencyDistribution] gives for each urgency the number of
    records stored with it, and the four counters add up to the number
    of records. *)
Theorem urgency_distribution_counts :
  forall w : World,
    dist_baja (getUrgencyDistribution w)
      = count_with_urgency baja (getMessages w) /\
    dist_media (getUrgencyDistribution w)
      = count_with_urgency media (getMessages w) /\
    dist_alta (getUrgencyDistribution w)
      = count_with_urgency alta (getMessages w) /\
    dist_urgente (getUrgencyDistribution w)
      = count_with_urgency urgente (getMessages w) /\
    dist_baja (getUrgencyDistribution w) + dist_media (getUrgencyDistribution w)
    + dist_alta (getUrgencyDistribution w)
    + dist_urgente (getUrgencyDistribution w)
      = Z.of_nat (List.length (getMessages w)).
Proof.
  intros w. unfold getUrgencyDistribution.
  destruct (count_urgency_fold (getMessages w)
              {| dist_baja := 0; dist_media := 0; dist_alta := 0;
                 dist_urgente := 0 |} _ eq_refl) as [B [Me [A U]]].
  cbn [dist_baja dist_media dist_alta dist_urgente] in B, Me, A, U.
  rewrite B, Me, A, U, !Z.add_0_l.
  repeat split. clear B Me A U. unfold count_with_urgency.
  induction (getMessages w) as [|m l IH]; [reflexivity |].
  cbn [filter].
  destruct (msg_urgency m); cbn [Urgency_eqb List.length]; lia.
Qed.

(* ================================================================== *)
(** ** The stored snapshot and a later analysis *)
(* ================================================================== *)

Lemma analyze_recommendation (text : jsstring) :
  recommendation (analyze text) = getRecommendation (crisisLevel (analyze text)).
Proof.
  unfold analyze.
  destruct (crisis_of_score (scan_score (scan_keywords (toLowerCase text))))
    as [lvl crisis].
  reflexivity.
Qed.

Lemma step_snapshot (w w' : World) :
  step w w' ->
  Forall snapshot_of_body (getMessages w) ->
  Forall snapshot_of_body (getMessages w').
Proof.
  assert (K : forall m m', later_version m m' ->
              snapshot_of_body m -> snapshot_of_body m').
  { intros m m' [S _] G. unfold same_submission in S.
    unfold snapshot_of_body in *.
    destruct S as [_ [_ [_ [_ [B [_ [_ [D [L Kw]]]]]]]]].
    now rewrite <- B, <- D, <- L, <- Kw. }
  intros S F.
  destruct S as [w0 | fuel random dateNow isoNow d m w0 w0' Hr H
                 | messageId replyText notes isoNow w0 w0' H
                 | trackingCode inputValue isoNow w0 w0' H
                 | messageId newStatus w0 w0' H].
  - exact F.
  - apply addMessage_shape in H.
    destruct H as [-> [_ [_ [_ [_ [B [_ [_ [_ [_ [_ [D [L Kw]]]]]]]]]]]]].
    rewrite getMessages_saveMessages. constructor; [| exact F].
    unfold snapshot_of_body. rewrite B. repeat split; assumption.
  - apply handleReplySubmit_shape in H.
    destruct H as [l1 [m [l2 [E [-> _]]]]].
    rewrite getMessages_saveMessages. rewrite E in F.
    apply Forall_app in F. destruct F as [F1 F2]. inversion F2; subst.
    apply Forall_app. split; [exact F1 |]. constructor; [| assumption].
    eapply K; [apply counselor_reply_later | assumption].
  - apply handleStudentReply_shape in H.
    destruct H as [_ [l1 [m [l2 [E [-> _]]]]]].
    rewrite getMessages_saveMessages. rewrite E in F.
    apply Forall_app in F. destruct F as [F1 F2]. inversion F2; subst.
    apply Forall_app. split; [exact F1 |]. constructor; [| assumption].
    eapply K; [apply student_reply_later | assumption].
  - apply updateMessageStatus_shape in H.
    destruct H as [l1 [m [l2 [E [-> _]]]]].
    rewrite getMessages_saveMessages. rewrite E in F.
    apply Forall_app in F. destruct F as [F1 F2]. inversion F2; subst.
    apply Forall_app. split; [exact F1 |]. constructor; [| assumption].
    eapply K; [apply set_status_later | assumption].
Qed.

(** X26. In every reachable collection the crisis fields stored with a
    record are those a fresh [analyze] of its body gives; so the
    recommendation that the detail view computes anew for a record with
    a detected crisis is the recommendation of the stored level, and
    never the one of the level none. *)
Theorem reachable_snapshot_matches_analysis :
  forall w : World,
    reachable w ->
    Forall snapshot_of_body (getMessages w) /\
    (forall messageId r,
       showMessageDetail_recommendation messageId w = Some r ->
       exists m,
         In m (getMessages w) /\ msg_id m = messageId /\
         msg_crisisLevel m <> none /\
         r = getRecommendation (msg_crisisLevel m)).
Proof.
  intros w H.
  assert (F : Forall snapshot_of_body (getMessages w)).
  { unfold reachable in H. remember emptyWorld as w0 eqn:E0.
    induction H as [w | w w' w'' H IH S].
    - subst. constructor.
    - eapply step_snapshot; [exact S | exact (IH E0)]. }
  split; [exact F |].
  intros messageId r. unfold showMessageDetail_recommendation.
  destruct (find _ (getMessages w)) as [m|] eqn:E; [| discriminate].
  apply find_some in E. destruct E as [Hin P]. apply str_eqb_eq in P.
  destruct (msg_crisisDetected m) eqn:D; [| discriminate].
  intros R. inversion R; subst. exists m.
  rewrite Forall_forall in F. destruct (F m Hin) as [Sd [Sl _]].
  pose proof (crisis_fields_invariant w H) as C.
  rewrite Forall_forall in C. destruct (C m Hin) as [[Ag _] _].
  split; [exact Hin |]. split; [reflexivity |].
  split; [now apply Ag |].
  now rewrite analyze_recommendation, Sl.
Qed.

Lemma reachable_snapshot_matches_analysis_witness :
  reachable world_after_resolution /\
  exists r m,
    showMessageDetail_recommendation (lit "1765237304000")
      world_after_resolution = Some r /\
    In m (getMessages world_after_resolution) /\
    r = getRecommendation (msg_crisisLevel m).
Proof.
  split; [exact world_after_resolution_reachable |].
  destruct (showMessageDetail_recommendation (lit "1765237304000")
              world_after_resolution) as [r|] eqn:E;
    [| vm_compute in E; discriminate].
  destruct (reachable_snapshot_matches_analysis _
              world_after_resolution_reachable) as [_ H].
  destruct (H _ _ E) as [m [Hin [_ [_ Hr]]]].
  exists r, m. split; [reflexivity |]. split; [exact Hin | exact Hr].
Defined.

(** X27. Ids are taken from the clock and are not checked against the
    collection.  When a record is created with an id, a counselor reply
    or a status update addressed to that id changes this newest record
    and leaves every older record, also one with the same id, as it
    was. *)
Theorem reply_reaches_newest_with_id :
  forall (fuel : nat) (random : nat -> Q) (dateNow isoNow : jsstring)
         (w w' : World) (d : MessageData) (m : Message)
         (replyText notes iso2 : jsstring) (newStatus : Status),
    addMessage fuel random dateNow isoNow w d = Some (m, w') ->
    msg_id m = dateNow /\
    (exists m1,
       handleReplySubmit dateNow replyText notes iso2 w'
         = Some (saveMessages (m1 :: getMessages w) w') /\
       later_version m m1 /\
       List.length (msg_replies m1) = 1%nat) /\
    updateMessageStatus dateNow newStatus w'
      = Some (saveMessages (set_status newStatus m :: getMessages w) w').
Proof.
  intros fuel random dateNow isoNow w w' d m replyText notes iso2 newStatus H.
  apply addMessage_shape in H.
  destruct H as [-> [_ [Id [_ [_ [_ [_ [_ [R _]]]]]]]]].
  split; [exact Id |].
  unfold handleReplySubmit, updateMessageStatus.
  rewrite getMessages_saveMessages. cbn [update_found].
  rewrite Id, str_eqb_refl. split; [| reflexivity].
  exists (counselor_reply replyText notes iso2 m).
  split; [reflexivity |]. split; [apply counselor_reply_later |].
  unfold counselor_reply. simpl.
  destruct (Status_eqb (msg_status m) new
            || Status_eqb (msg_status m) in_review); simpl;
    rewrite R; reflexivity.
Qed.

Lemma reply_reaches_newest_with_id_witness :
  exists m w',
    addMessage 2 sample_random (msg_id sample_message)
      (lit "2025-12-08T23:41:44.000Z") sample_world
      (critical_submission baja) = Some (m, w') /\
    msg_id m = msg_id sample_message /\
    updateMessageStatus (msg_id sample_message) resolved w'
      = Some (saveMessages (set_status resolved m :: [sample_message]) w').
Proof.
  destruct (addMessage 2 sample_random (msg_id sample_message)
              (lit "2025-12-08T23:41:44.000Z") sample_world
              (critical_submission baja)) as [[m w']|] eqn:E;
    [| vm_compute in E; discriminate].
  exists m, w'. split; [reflexivity |].
  destruct (reply_reaches_newest_with_id _ _ _ _ _ _ _ _
              (lit "hola") (lit "nota") (lit "2025-12-09T10:00:00.000Z")
              resolved E) as [Id [_ U]].
  split; [exact Id | exact U].
Defined.

Lemma nested_keywords_compound_witness :
  In (lit "matarme")
     (detectedKeywords (analyze (lit "Quiero MATARME"))) /\
  In (lit "matar")
     (detectedKeywords (analyze (lit "Quiero MATARME"))) /\
  19 <= severityScore (analyze (lit "Quiero MATARME")).
Proof.
  assert (H : In (lit "matarme")
                 (detectedKeywords (analyze (lit "Quiero MATARME"))))
    by (vm_compute; tauto).
  split; [exact H |].
  exact (proj1 (nested_keywords_compound (lit "Quiero MATARME")) H).
Defined.

(* ================================================================== *)
(** ** From the tracking view to the reply *)
(* ================================================================== *)

Lemma NoDup_map_app_head (l1 l2 : list Message) (m : Message) :
  NoDup (map msg_trackingCode (l1 ++ m :: l2)) ->
  forall x, In x l1 -> msg_trackingCode x <> msg_trackingCode m.
Proof.
  intros N x Hx E.
  assert (x = m).
  { apply (NoDup_map_inj (l1 ++ m :: l2)); try assumption.
    - apply in_or_app. now left.
    - apply in_elt. }
  subst x. rewrite map_app in N. simpl in N.
  apply NoDup_remove_2 in N. apply N.
  apply in_or_app. left. now apply in_map.
Qed.

(** X28. In a reachable collection, a record that the tracking view
    shows together with its reply form (the record is responded or has
    a reply; for other records no form is rendered and no reply can be
    sent) can be answered: a reply that is not blank, sent from that
    form with the code of the record shown, is saved, and it is that
    record which gets the reply at the end of its replies and the
    status responded. *)
Theorem track_then_reply :
  forall (toUpperCase : jsstring -> jsstring) (w : World)
         (codeInput replyInput isoNow : jsstring) (m : Message),
    reachable w ->
    handleTrackMessage toUpperCase codeInput w = TrackingShown m true ->
    trim replyInput <> [] ->
    (msg_status m = responded \/ msg_replies m <> []) /\
    exists l1 l2 m',
      getMessages w = l1 ++ m :: l2 /\
      handleStudentReply (msg_trackingCode m) replyInput isoNow w
        = ReplySaved (saveMessages (l1 ++ m' :: l2) w) /\
      later_version m m' /\
      msg_replies m' =
        msg_replies m ++
        [{| reply_from := student; reply_message := trim replyInput;
            reply_timestamp := isoNow |}] /\
      msg_status m' = responded.
Proof.
  intros toUpperCase w codeInput replyInput isoNow m Hr Ht Hn.
  assert (Hin : In m (getMessages w) /\ reply_form_rendered m = true).
  { unfold handleTrackMessage in Ht.
    destruct (trim codeInput); [discriminate |].
    unfold getMessageByCode in Ht.
    destruct (find _ (getMessages w)) as [m0|] eqn:E; [| discriminate].
    inversion Ht; subst. apply find_some in E. tauto. }
  destruct Hin as [Hin Hform]. split.
  { unfold reply_form_rendered in Hform.
    destruct (msg_status m), (msg_replies m); simpl in Hform;
      first [discriminate | now left | right; discriminate]. }
  destruct (codes_invariant w Hr) as [N _].
  apply in_split in Hin. destruct Hin as [l1 [l2 E]].
  rewrite E in N.
  pose proof (NoDup_map_app_head l1 l2 m N) as Hl.
  exists l1, l2, (student_reply (trim replyInput) isoNow m).
  split; [exact E |].
  split; [| split; [apply student_reply_later | split; reflexivity]].
  unfold handleStudentReply.
  destruct (trim replyInput) as [|c t] eqn:T; [congruence |].
  rewrite E, findIndex_first.
  - destruct (Z.eqb_spec (Z.of_nat (List.length l1)) (-1)); [lia |].
    now rewrite Nat2Z.id, update_at_length.
  - intros x Hx. now apply str_eqb_neq, Hl.
  - apply str_eqb_refl.
Qed.

Lemma track_then_reply_witness :
  reachable world_two_records /\
  trim (lit "sigo aqui ") <> [] /\
  exists m l1 l2 m',
    handleTrackMessage toUpperCase_ascii (lit " aaaaaaaa") world_two_records
      = TrackingShown m true /\
    getMessages world_two_records = l1 ++ m :: l2 /\
    handleStudentReply (msg_trackingCode m) (lit "sigo aqui ")
      (lit "2025-12-10T09:00:00.000Z") world_two_records
      = ReplySaved (saveMessages (l1 ++ m' :: l2) world_two_records) /\
    msg_status m = resolved /\ msg_status m' = responded.
Proof.
  split; [exact world_two_records_reachable |].
  split; [vm_compute; discriminate |].
  destruct (handleTrackMessage toUpperCase_ascii (lit " aaaaaaaa")
              world_two_records) as [| |m form] eqn:E;
    try (vm_compute in E; discriminate).
  assert (Hf : form = true /\ msg_status m = resolved).
  { pose proof E as E'. vm_compute in E'. inversion E'. split; reflexivity. }
  destruct Hf as [-> Hs].
  destruct (track_then_reply toUpperCase_ascii world_two_records
              (lit " aaaaaaaa") (lit "sigo aqui ")
              (lit "2025-12-10T09:00:00.000Z") m
              world_two_records_reachable E
              ltac:(vm_compute; discriminate))
    as [_ [l1 [l2 [m' [G [H [_ [_ S]]]]]]]].
  exists m, l1, l2, m'. repeat split; assumption.
Defined.
